(** * readfacevmd: the per-frame Channel Mapper of [readfacevmd.cc]

    The development embeds the mapping phase of [read_face_vmd]: the loop
    that turns each captured frame (head pose, action units, gaze) into
    bone key frames and morph key frames of a VMD motion. The stages that
    follow the loop (smoothing and reduction, refinement, renaming, output)
    are defined in other files and are not part of it. The initialisation
    of the header, [init_vmd_header], which precedes the loop, is embedded
    on its own.

    Conventions of the embedding.
    - A C++ [double] is a primitive binary64 float of Rocq ([float]); a C++
      [float] is the binary64 image of a binary32 value, and every
      conversion from [double] to [float] is written [double_to_float].
    - [uint32_t] is a [Z] reduced modulo [2^32] by [uint32].
    - [std::vector] is a [list]; [push_back] appends at the end.
    - Code that lives outside of the file (Eigen, OpenCV, OpenFace, the
      Shift-JIS conversion of MMDFileIOUtil) is a [Variable] of the section
      that uses it. *)

From Stdlib Require Import ZArith String Ascii Floats.
From stdpp Require Import base tactics option list strings sorting.

Set Warnings "-inexact-float".
Set Default Proof Using "Type".

Local Open Scope Z_scope.

(** ** Numbers *)

(** [uint32_t] arithmetic wraps modulo [2^32]. *)
Definition uint32 (z : Z) : Z := z mod 2 ^ 32.

(** The implicit conversion from [double] to [float]: round to nearest even
    on 24 bits of precision with the binary32 exponent range. Zeros,
    infinities and NaN keep their class. *)
Definition double_to_float (x : float) : float :=
  match Prim2SF x with
  | S754_finite s m e => SF2Prim (SpecFloat.binary_round 24 128 s m e)
  | _ => x
  end.

(** Binary32 multiplication and division. Rounding the binary64 result once
    more to binary32 is the correctly rounded binary32 operation. *)
Definition float_mul (a b : float) : float := double_to_float (a * b)%float.
Definition float_div (a b : float) : float := double_to_float (a / b)%float.

(** Membership of the closed unit interval, with the comparisons of IEEE 754
    (both are false on NaN). *)
Definition in_unit_interval (w : float) : bool :=
  (0 <=? w)%float && (w <=? 1)%float.

(** ** Geometry carriers *)

(** [Eigen::Vector3d], [Eigen::Vector3f] and [cv::Point3f]. *)
Record Vector3 : Type := mkVector3 { v_x : float; v_y : float; v_z : float }.

(** [Eigen::Quaterniond] and [Eigen::Quaternionf]. *)
Record Quaternion : Type :=
  mkQuaternion { q_w : float; q_x : float; q_y : float; q_z : float }.

(** [cv::Vec6d], the pose returned by [LandmarkDetector::GetPose]:
    [head_pose[0..2]] is the position, [head_pose[3..5]] the three angles. *)
Record Vec6d : Type :=
  mkVec6d { p0 : float; p1 : float; p2 : float; p3 : float; p4 : float; p5 : float }.

Definition UnitX : Vector3 := mkVector3 1 0 0.
Definition UnitY : Vector3 := mkVector3 0 1 0.
Definition UnitZ : Vector3 := mkVector3 0 0 1.
Definition Quaternion_Identity : Quaternion := mkQuaternion 1 0 0 0.
Definition Vector3_Zero : Vector3 := mkVector3 0 0 0.

(** ** The motion document *)

(** Modelled from the spec: [VMD.h] is not part of the sources. A bone
    record carries a name, a frame index, three position floats (zero for
    a pure rotation) and four quaternion floats (identity for a pure
    position); a morph record carries a name, a frame index and a weight. *)
Module VMD_Frame.
Record t : Type :=
  mk { bonename : string; number : Z; position : Vector3; rotation : Quaternion }.
End VMD_Frame.

Module VMD_Morph.
Record t : Type := mk { name : string; frame : Z; weight : float }.
End VMD_Morph.

Module VMD.
Record t : Type := mk { frame : list VMD_Frame.t; morph : list VMD_Morph.t }.
Definition empty : t := mk [] [].
End VMD.

(** ** Action units *)

Inductive AUID : Type :=
| InnerBrowRaiser | OuterBrowRaiser | BrowLowerer | UpperLidRaiser
| CheekRaiser | LidTightener | NoseWrinkler | UpperLipRaiser
| LipCornerPuller | Dimpler | LipCornerDepressor | ChinRaiser
| LipStrecher | LipTightener | LipPart | JawDrop | LipSuck | Blink.

Definition AUID_value (a : AUID) : nat :=
  match a with
  | InnerBrowRaiser => 1 | OuterBrowRaiser => 2 | BrowLowerer => 4
  | UpperLidRaiser => 5 | CheekRaiser => 6 | LidTightener => 7
  | NoseWrinkler => 9 | UpperLipRaiser => 10 | LipCornerPuller => 12
  | Dimpler => 14 | LipCornerDepressor => 15 | ChinRaiser => 17
  | LipStrecher => 20 | LipTightener => 23 | LipPart => 25
  | JawDrop => 26 | LipSuck => 28 | Blink => 45
  end%nat.

Definition AU_SIZE : nat := 46.
Definition ACTION_UNIT_MAXVAL : float := 5.0.

(** [au[AUID::a]] for an array [au] of [AU_SIZE] doubles. *)
Definition au_at (au : list float) (a : AUID) : float :=
  default 0%float (au !! AUID_value a).

(** ** Faults of the C++ execution *)

Inductive fault : Type :=
| SubstrOutOfRange                 (* [std::string::substr] throws *)
| IndexOutOfBounds (id : Z)        (* access outside of a fixed-size array *)
| IndeterminateRead (id : Z).      (* read of a slot of [valid] never written *)

Inductive outcome (A : Type) : Type :=
| Ok (a : A)
| Fault (f : fault).
Arguments Ok {A} a.
Arguments Fault {A} f.

#[global] Instance outcome_ret : MRet outcome := @Ok.
#[global] Instance outcome_bind : MBind outcome :=
  fun A B f m => match m with Ok a => f a | Fault e => Fault e end.

(** ** Reading the action units: [get_action_unit] *)

Definition isspace (c : ascii) : bool :=
  let n := nat_of_ascii c in (n =? 32)%nat || ((9 <=? n)%nat && (n <=? 13)%nat).

Definition digit_value (c : ascii) : option Z :=
  let n := nat_of_ascii c in
  if ((48 <=? n)%nat && (n <=? 57)%nat) then Some (Z.of_nat n - 48) else None.

Fixpoint skip_spaces (s : string) : string :=
  match s with
  | String c r => if isspace c then skip_spaces r else s
  | EmptyString => s
  end.

Fixpoint read_digits (s : string) (acc : Z) : Z :=
  match s with
  | String c r =>
      match digit_value c with
      | Some d => read_digits r (acc * 10 + d)
      | None => acc
      end
  | EmptyString => acc
  end.

(** [atoi] of the C library, on the short strings it is used on here (no
    overflow of [int] can occur on two characters). *)
Definition atoi (s : string) : Z :=
  match skip_spaces s with
  | String "-"%char r => - read_digits r 0
  | String "+"%char r => read_digits r 0
  | t => read_digits t 0
  end.

(** [s.substr(pos, n)]: throws when [pos] exceeds the size of [s]. *)
Definition substr (s : string) (pos n : nat) : outcome string :=
  if (String.length s <? pos)%nat then Fault SubstrOutOfRange
  else Ok (substring pos n s).

(** The id of an action-unit label: [atoi(p.first.substr(2, 2).c_str())]. *)
Definition au_id (label : string) : outcome Z :=
  id_str ← substr label 2 2; Ok (atoi id_str).

(** [arr[id] = x] on a fixed-size array. *)
Definition store {A : Type} (arr : list A) (id : Z) (x : A) : outcome (list A) :=
  if decide (0 ≤ id < Z.of_nat (length arr))
  then Ok (<[Z.to_nat id := x]> arr)
  else Fault (IndexOutOfBounds id).

(** [valid[id]] where [valid] starts uninitialised: a slot holds [None]
    until the presence loop writes it. *)
Definition read_valid (valid : list (option bool)) (id : Z) : outcome bool :=
  if decide (0 ≤ id < Z.of_nat (length valid))
  then match valid !! Z.to_nat id with
       | Some (Some b) => Ok b
       | _ => Fault (IndeterminateRead id)
       end
  else Fault (IndexOutOfBounds id).

Fixpoint presence_loop (presence : list (string * float))
    (valid : list (option bool)) : outcome (list (option bool)) :=
  match presence with
  | [] => Ok valid
  | p :: rest =>
      id ← au_id (fst p);
      valid' ← store valid id (Some (if (snd p =? 0)%float then false else true));
      presence_loop rest valid'
  end.

Fixpoint intensity_loop (intensity : list (string * float))
    (valid : list (option bool)) (au : list float) : outcome (list float) :=
  match intensity with
  | [] => Ok au
  | p :: rest =>
      id ← au_id (fst p);
      v ← read_valid valid id;
      au' ← (if (v : bool) then store au id (snd p / ACTION_UNIT_MAXVAL)%float else Ok au);
      intensity_loop rest valid au'
  end.

(** [intensity] is [GetCurrentAUsReg()], [presence] is
    [GetCurrentAUsClass()]: vectors of (label, value) pairs. *)
Definition get_action_unit (intensity presence : list (string * float))
  : outcome (list float) :=
  let au := replicate AU_SIZE 0%float in
  valid ← presence_loop presence (replicate AU_SIZE None);
  intensity_loop intensity valid au.

(** ** What the collaborators report for one frame *)

(** The part of the face model ([LandmarkDetector::CLNF]) the mapper looks
    at. [hierarchical_model_names] runs parallel to the vector
    [hierarchical_models]; [detected_landmarks] stands for the landmark state
    the gaze estimation reads through [GetShape]. *)
Record CLNF : Type := mkCLNF {
  eye_model : bool;
  hierarchical_model_names : list string;
  detected_landmarks : list float
}.

(** One iteration's worth of answers of OpenFace: the result of
    [DetectLandmarksInVideo], the face model after it, the pose of
    [GetPose], and the vectors of [GetCurrentAUsReg] and
    [GetCurrentAUsClass] after [PredictStaticAUsAndComputeFeatures]. *)
Record Observation : Type := mkObservation {
  detected : bool;
  face_model : CLNF;
  head_pose : Vec6d;
  intensity : list (string * float);
  presence : list (string * float)
}.

(** ** The Channel Mapper *)

Section ChannelMapper.

(** [MMDFileIOUtil::utf8_to_sjis]: the content of the fixed-width name field
    for a UTF-8 name. *)
Variable utf8_to_sjis : string -> string.

(** Eigen: [AngleAxisd(angle, axis)] seen as a quaternion, the product of
    quaternions, the rotation of a vector by a quaternion,
    [Quaterniond::FromTwoVectors] and [a.slerp(t, b)]. *)
Variable AngleAxisd : float -> Vector3 -> Quaternion.
Variable quat_mul : Quaternion -> Quaternion -> Quaternion.
Variable quat_rotate : Quaternion -> Vector3 -> Vector3.
Variable FromTwoVectors : Vector3 -> Vector3 -> Quaternion.
Variable slerp : Quaternion -> float -> Quaternion -> Quaternion.

(** The second half of [CustomEstimateGaze], for the eye part found at an
    index: the ray from the eyeball centre through the re-projected pupil,
    computed from the shapes of [GetShape] with the matrix arithmetic of
    OpenCV. *)
Variable gaze_through_pupil : CLNF -> nat -> bool -> Vector3.

(** *** Key frames *)

Definition add_rotation_pose (frame_vec : list VMD_Frame.t) (rot : Quaternion)
    (frame_number : Z) (bone_name : string) : list VMD_Frame.t :=
  let frame :=
    {| VMD_Frame.bonename := utf8_to_sjis bone_name;
       VMD_Frame.number := frame_number;
       VMD_Frame.position := Vector3_Zero;
       VMD_Frame.rotation :=
         mkQuaternion (double_to_float (q_w rot)) (double_to_float (q_x rot))
                      (double_to_float (q_y rot)) (double_to_float (q_z rot)) |} in
  frame_vec ++ [frame].

Definition add_position_pose (frame_vec : list VMD_Frame.t) (pos : Vector3)
    (frame_number : Z) (bone_name : string) : list VMD_Frame.t :=
  let frame :=
    {| VMD_Frame.bonename := utf8_to_sjis bone_name;
       VMD_Frame.number := frame_number;
       VMD_Frame.position := mkVector3 (v_x pos) (v_y pos) (v_z pos);
       VMD_Frame.rotation := Quaternion_Identity |} in
  frame_vec ++ [frame].

Definition add_head_pose (frame_vec : list VMD_Frame.t) (rot : Quaternion)
    (frame_number : Z) : list VMD_Frame.t :=
  let bone_name := "頭"%string in
  add_rotation_pose frame_vec rot frame_number bone_name.

Definition add_center_frame (frame_vec : list VMD_Frame.t) (pos : Vector3)
    (frame_number : Z) : list VMD_Frame.t :=
  let bone_name := "センター"%string in
  add_position_pose frame_vec pos frame_number bone_name.

Definition add_gaze_pose (frame_vec : list VMD_Frame.t)
    (gazedir_left gazedir_right : Vector3) (head_rot : Quaternion)
    (frame_number : Z) : list VMD_Frame.t :=
  let front := quat_rotate head_rot (mkVector3 0 0 (-1)) in
  let leftdir :=
    mkVector3 (v_x gazedir_left) (- v_y gazedir_left)%float (v_z gazedir_left) in
  let rot_left := FromTwoVectors front leftdir in
  let rightdir :=
    mkVector3 (v_x gazedir_right) (- v_y gazedir_right)%float (v_z gazedir_right) in
  let rot_right := FromTwoVectors front rightdir in
  let amp_each := 0.25%float in
  let rot_right := slerp Quaternion_Identity amp_each rot_right in
  let rot_left := slerp Quaternion_Identity amp_each rot_left in
  let frame_vec := add_rotation_pose frame_vec rot_right frame_number "左目" in
  add_rotation_pose frame_vec rot_left frame_number "右目".

Definition add_morph_frame (morph_vec : list VMD_Morph.t) (name : string)
    (frame_number : Z) (weight : float) : list VMD_Morph.t :=
  let weight := if (1.0 <? weight)%float then 1.0%float else weight in
  let weight := if (weight <? 0.0)%float then 0.0%float else weight in
  let morph :=
    {| VMD_Morph.name := utf8_to_sjis name;
       VMD_Morph.frame := frame_number;
       VMD_Morph.weight := weight |} in
  morph_vec ++ [morph].

(** *** Expressions from action units *)

(** Every call of [add_morph_frame] passes a [double] for the [float]
    parameter [weight]: the conversion is written at each call. *)
Definition estimate_facial_expression (morph_vec : list VMD_Morph.t)
    (au : list float) (frame_number : Z) : list VMD_Morph.t :=
  let mouth_a := (au_at au JawDrop * 2)%float in
  let mouth_i := 0%float in
  let mouth_u := (au_at au LipTightener * 2)%float in
  let mouth_i :=
    if (mouth_a <? 0.1)%float && (mouth_u <? 0.1)%float
    then (au_at au LipPart * 2)%float else mouth_i in
  let mouth_smile := au_at au LipCornerPuller in
  let morph_vec := add_morph_frame morph_vec "あ" frame_number (double_to_float mouth_a) in
  let morph_vec := add_morph_frame morph_vec "い" frame_number (double_to_float mouth_i) in
  let morph_vec := add_morph_frame morph_vec "う" frame_number (double_to_float mouth_u) in
  let morph_vec := add_morph_frame morph_vec "にやり" frame_number (double_to_float mouth_smile) in
  let morph_vec := add_morph_frame morph_vec "∧" frame_number
                     (double_to_float (au_at au LipCornerDepressor)) in
  let blink := au_at au LidTightener in
  let blink := if (0.2 <? au_at au Blink)%float then 1.0%float else blink in
  let morph_vec := add_morph_frame morph_vec "まばたき" frame_number (double_to_float blink) in
  let morph_vec := add_morph_frame morph_vec "CheekRaiser" frame_number
                     (double_to_float (au_at au CheekRaiser)) in
  let morph_vec := add_morph_frame morph_vec "びっくり" frame_number
                     (double_to_float (au_at au UpperLidRaiser)) in
  let morph_vec := add_morph_frame morph_vec "困る" frame_number
                     (double_to_float (au_at au InnerBrowRaiser)) in
  let morph_vec := add_morph_frame morph_vec "真面目" frame_number
                     (double_to_float (au_at au OuterBrowRaiser)) in
  let morph_vec := add_morph_frame morph_vec "怒り" frame_number
                     (double_to_float (au_at au NoseWrinkler)) in
  let morph_vec := add_morph_frame morph_vec "下" frame_number
                     (double_to_float (au_at au BrowLowerer)) in
  add_morph_frame morph_vec "上" frame_number (double_to_float (au_at au UpperLidRaiser)).

(** *** Gaze *)

(** The search loop of [CustomEstimateGaze]: [part] is the index of the last
    model whose name matches; [None] is the initial [-1]. *)
Fixpoint find_eye_part (names : list string) (left_eye : bool) (i : nat)
    (part : option nat) : option nat :=
  match names with
  | [] => part
  | n :: rest =>
      let part := if left_eye && bool_decide (n = "left_eye_28"%string)
                  then Some i else part in
      let part := if negb left_eye && bool_decide (n = "right_eye_28"%string)
                  then Some i else part in
      find_eye_part rest left_eye (S i) part
  end.

Definition CustomEstimateGaze (clnf_model : CLNF) (left_eye : bool) : Vector3 :=
  match find_eye_part (hierarchical_model_names clnf_model) left_eye 0 None with
  | None => mkVector3 0 0 0
  | Some part => gaze_through_pupil clnf_model part left_eye
  end.

(** *** The frame loop of [read_face_vmd] *)

(** The body of the loop for a frame that was read. A frame on which the
    landmark detection fails leaves the document as it is ([continue]). *)
Definition process_frame (vmd : VMD.t) (frame_number : Z) (obs : Observation)
  : outcome VMD.t :=
  if negb (detected obs) then Ok vmd
  else
    let head_pose := head_pose obs in
    let rot_vmd :=
      quat_mul (quat_mul (AngleAxisd (- p3 head_pose)%float UnitX)
                         (AngleAxisd (p4 head_pose) UnitY))
               (AngleAxisd (- p5 head_pose)%float UnitZ) in
    let frame := add_head_pose (VMD.frame vmd) rot_vmd frame_number in
    let center_pos :=
      mkVector3 (double_to_float (p0 head_pose))
                (double_to_float (- p1 head_pose)%float)
                (double_to_float (p2 head_pose - 1000)%float) in
    let scaled c := float_div (float_div (float_mul c 12.5) 1000) 2 in
    let center_pos :=
      mkVector3 (scaled (v_x center_pos)) (scaled (v_y center_pos))
                (scaled (v_z center_pos)) in
    let frame := add_center_frame frame center_pos frame_number in
    action_unit ← get_action_unit (intensity obs) (presence obs);
    let morph := estimate_facial_expression (VMD.morph vmd) action_unit frame_number in
    if eye_model (face_model obs) then
      let gazedir_left := CustomEstimateGaze (face_model obs) true in
      let gazedir_right := CustomEstimateGaze (face_model obs) false in
      Ok (VMD.mk (add_gaze_pose frame gazedir_left gazedir_right rot_vmd frame_number)
                 morph)
    else Ok (VMD.mk frame morph).

(** The loop over the frames the capture delivers before its first empty
    image; [frame_number] is a [uint32_t] incremented at every iteration,
    also after [continue]. *)
Fixpoint frame_loop (vmd : VMD.t) (frame_number : Z) (frames : list Observation)
  : outcome VMD.t :=
  match frames with
  | [] => Ok vmd
  | obs :: rest =>
      vmd' ← process_frame vmd frame_number obs;
      frame_loop vmd' (uint32 (frame_number + 1)) rest
  end.

(** The mapping phase of [read_face_vmd]: the loop from an empty document. *)
Definition mapping_phase (frames : list Observation) : outcome VMD.t :=
  frame_loop VMD.empty 0 frames.

End ChannelMapper.

(** ** The header: [init_vmd_header] *)

(** Modelled from the spec: the header of the motion document holds the
    format version and the name of the target model in two character fields
    of fixed width, null-padded. [VMD.h] declares the fields with their
    widths [version_len] and [modelname_len]; here a field is the list of its
    characters and its width is the length of the list. *)
Module VMD_Header.
Record t : Type := mk { version : list ascii; modelname : list ascii }.
Definition version_len (h : t) : nat := length (version h).
Definition modelname_len (h : t) : nat := length (modelname h).
End VMD_Header.

(** The null character. *)
Definition NUL : ascii := Ascii.zero.

(** [memset(s, c, n)] on a character array: [None] is a write past its end. *)
Definition memset (s : list ascii) (c : ascii) (n : nat) : option (list ascii) :=
  if decide (n <= length s)%nat then Some (replicate n c ++ drop n s) else None.

(** [strcpy(dest, src)]: the characters of [src] and the terminating null. *)
Definition strcpy (dest : list ascii) (src : string) : option (list ascii) :=
  let chars := list_ascii_of_string src ++ [NUL] in
  if decide (length chars <= length dest)%nat
  then Some (chars ++ drop (length chars) dest) else None.

Definition init_vmd_header (h : VMD_Header.t) : option VMD_Header.t :=
  version ← memset (VMD_Header.version h) NUL (VMD_Header.version_len h);
  version ← strcpy version "Vocaloid Motion Data 0002";
  modelname ← memset (VMD_Header.modelname h) NUL (VMD_Header.modelname_len h);
  modelname ← strcpy modelname "dummy model";
  Some (VMD_Header.mk version modelname).

(** * Vocabulary of the statements *)

(** ** Channels *)

(** A channel is the sequence of the records that carry one name, in the
    order of the vector. *)
Definition bone_channel (nm : string) (l : list VMD_Frame.t) : list VMD_Frame.t :=
  filter (fun f => VMD_Frame.bonename f = nm) l.

Definition morph_channel (nm : string) (l : list VMD_Morph.t) : list VMD_Morph.t :=
  filter (fun m => VMD_Morph.name m = nm) l.

(** The time series of a morph channel: frame index and weight. *)
Definition morph_series (nm : string) (l : list VMD_Morph.t) : list (Z * float) :=
  (fun m => (VMD_Morph.frame m, VMD_Morph.weight m)) <$> morph_channel nm l.

Definition strictly_increasing (l : list Z) : Prop := StronglySorted Z.lt l.

(** The names the mapper writes, by kind. *)
Definition bone_names : list string := ["頭"; "センター"; "左目"; "右目"]%string.

Definition morph_names : list string :=
  ["あ"; "い"; "う"; "にやり"; "∧"; "まばたき"; "CheekRaiser"; "びっくり";
   "困る"; "真面目"; "怒り"; "下"; "上"]%string.

(** ** Morph samples *)

(** The two tests of [add_morph_frame] on a weight. *)
Definition clamp01 (weight : float) : float :=
  let weight := if (1.0 <? weight)%float then 1.0%float else weight in
  if (weight <? 0.0)%float then 0.0%float else weight.

(** The [double] handed to [add_morph_frame] under each name, in the order
    of the calls of [estimate_facial_expression]. *)
Definition expression_table (au : list float) : list (string * float) :=
  let mouth_a := (au_at au JawDrop * 2)%float in
  let mouth_u := (au_at au LipTightener * 2)%float in
  let mouth_i :=
    if (mouth_a <? 0.1)%float && (mouth_u <? 0.1)%float
    then (au_at au LipPart * 2)%float else 0%float in
  let blink :=
    if (0.2 <? au_at au Blink)%float then 1.0%float else au_at au LidTightener in
  [("あ", mouth_a); ("い", mouth_i); ("う", mouth_u);
   ("にやり", au_at au LipCornerPuller); ("∧", au_at au LipCornerDepressor);
   ("まばたき", blink); ("CheekRaiser", au_at au CheekRaiser);
   ("びっくり", au_at au UpperLidRaiser); ("困る", au_at au InnerBrowRaiser);
   ("真面目", au_at au OuterBrowRaiser); ("怒り", au_at au NoseWrinkler);
   ("下", au_at au BrowLowerer); ("上", au_at au UpperLidRaiser)]%string.

(** ** Action-unit vectors *)

(** The id of a label that is long enough. *)
Definition label_id (label : string) : Z := atoi (substring 2 2 label).

(** The value of the last pair whose label carries the id [i]. *)
Fixpoint last_report (m : list (string * float)) (i : Z) : option float :=
  match m with
  | [] => None
  | p :: rest =>
      match last_report rest i with
      | Some v => Some v
      | None => if decide (label_id (fst p) = i) then Some (snd p) else None
      end
  end.

(** The value specified for slot [i]: the last intensity reported for [i]
    over 5.0 when the last presence reported for [i] is not zero. *)
Definition expected_slot (intensity presence : list (string * float)) (i : Z) : float :=
  match last_report intensity i, last_report presence i with
  | Some v, Some f => if (f =? 0)%float then 0%float else (v / ACTION_UNIT_MAXVAL)%float
  | _, _ => 0%float
  end.

(** A label the mapper can index with. *)
Definition label_ok (label : string) : Prop :=
  (2 <= String.length label)%nat /\ 0 <= label_id label < Z.of_nat AU_SIZE.

(** ** Samples of one frame *)

(** The component-wise conversion of [add_rotation_pose]. *)
Definition Quaternionf_of (q : Quaternion) : Quaternion :=
  mkQuaternion (double_to_float (q_w q)) (double_to_float (q_x q))
               (double_to_float (q_y q)) (double_to_float (q_z q)).

Section Samples.

Variable utf8_to_sjis : string -> string.
Variable AngleAxisd : float -> Vector3 -> Quaternion.
Variable quat_mul : Quaternion -> Quaternion -> Quaternion.
Variable quat_rotate : Quaternion -> Vector3 -> Vector3.
Variable FromTwoVectors : Vector3 -> Vector3 -> Quaternion.
Variable slerp : Quaternion -> float -> Quaternion -> Quaternion.
Variable gaze_through_pupil : CLNF -> nat -> bool -> Vector3.

(** The morph record of an entry of the table. *)
Definition morph_of (frame_number : Z) (p : string * float) : VMD_Morph.t :=
  {| VMD_Morph.name := utf8_to_sjis p.1;
     VMD_Morph.frame := frame_number;
     VMD_Morph.weight := clamp01 (double_to_float p.2) |}.

Definition rotation_key (name : string) (frame_number : Z) (rot : Quaternion)
  : VMD_Frame.t :=
  VMD_Frame.mk (utf8_to_sjis name) frame_number Vector3_Zero (Quaternionf_of rot).

Definition position_key (name : string) (frame_number : Z) (pos : Vector3)
  : VMD_Frame.t :=
  VMD_Frame.mk (utf8_to_sjis name) frame_number pos Quaternion_Identity.

(** The head rotation of a pose, as [read_face_vmd] composes it. *)
Definition head_rotation (pose : Vec6d) : Quaternion :=
  quat_mul (quat_mul (AngleAxisd (- p3 pose)%float UnitX)
                     (AngleAxisd (p4 pose) UnitY))
           (AngleAxisd (- p5 pose)%float UnitZ).

(** The centre position of a pose. *)
Definition center_position (pose : Vec6d) : Vector3 :=
  let scaled c := float_div (float_div (float_mul c 12.5) 1000) 2 in
  mkVector3 (scaled (double_to_float (p0 pose)))
            (scaled (double_to_float (- p1 pose)%float))
            (scaled (double_to_float (p2 pose - 1000)%float)).

(** The damped rotation from the forward direction of the head to a gaze
    direction, as [add_gaze_pose] computes it for each eye. *)
Definition gaze_rotation (head_rot : Quaternion) (gazedir : Vector3) : Quaternion :=
  slerp Quaternion_Identity 0.25
    (FromTwoVectors (quat_rotate head_rot (mkVector3 0 0 (-1)))
       (mkVector3 (v_x gazedir) (- v_y gazedir)%float (v_z gazedir))).

(** The names of the bone samples of a processed frame, in order. *)
Definition bone_names_of (obs : Observation) : list string :=
  ["頭"; "センター"]%string ++
  (if eye_model (face_model obs) then ["左目"; "右目"]%string else []).

(** The bone samples of a processed frame, in order. *)
Definition bone_samples (obs : Observation) (frame_number : Z) : list VMD_Frame.t :=
  let rot_vmd := head_rotation (head_pose obs) in
  [rotation_key "頭" frame_number rot_vmd;
   position_key "センター" frame_number (center_position (head_pose obs))] ++
  (if eye_model (face_model obs) then
     [rotation_key "左目" frame_number
        (gaze_rotation rot_vmd (CustomEstimateGaze gaze_through_pupil (face_model obs) false));
      rotation_key "右目" frame_number
        (gaze_rotation rot_vmd (CustomEstimateGaze gaze_through_pupil (face_model obs) true))]
   else []).

End Samples.

(** A frame the mapper can process: its action units can be read. *)
Definition units_readable (obs : Observation) : Prop :=
  detected obs = true ->
  exists au, get_action_unit (intensity obs) (presence obs) = Ok au.

(** Every record of the document is numbered below [b]. *)
Definition numbers_below (b : Z) (vmd : VMD.t) : Prop :=
  Forall (fun f => VMD_Frame.number f < b) (VMD.frame vmd) /\
  Forall (fun m => VMD_Morph.frame m < b) (VMD.morph vmd).

(** Within every channel the frame indices increase strictly. *)
Definition channels_increasing (vmd : VMD.t) : Prop :=
  forall nm : string,
    strictly_increasing (VMD_Frame.number <$> bone_channel nm (VMD.frame vmd)) /\
    strictly_increasing (VMD_Morph.frame <$> morph_channel nm (VMD.morph vmd)).

(** ** Labels *)

(** The label OpenFace gives the unit [n]: two letters and two digits. *)
Definition digit_char (d : nat) : ascii := ascii_of_nat (48 + d).

Definition two_digits (n : nat) : string :=
  String (digit_char (n / 10)) (String (digit_char (n mod 10)) EmptyString).

(** The units [estimate_facial_expression] reads. *)
Definition units_read : list AUID :=
  [JawDrop; LipTightener; LipPart; LipCornerPuller; LipCornerDepressor;
   LidTightener; Blink; CheekRaiser; UpperLidRaiser; InnerBrowRaiser;
   OuterBrowRaiser; NoseWrinkler; BrowLowerer].

(** ** Eye parts *)

(** The name [CustomEstimateGaze] looks for. *)
Definition eye_part_name (left_eye : bool) : string :=
  if left_eye then "left_eye_28"%string else "right_eye_28"%string.

(** ** Streams *)

(** The value of the counter at the [i]-th iteration of the loop. *)
Definition frame_index (i : nat) : Z := uint32 (Z.of_nat i).

(** The positions, counted from [i], of the elements that satisfy [f]. *)
Fixpoint positions_where {A : Type} (f : A -> bool) (i : nat) (l : list A)
  : list nat :=
  match l with
  | [] => []
  | a :: rest => (if f a then [i] else []) ++ positions_where f (S i) rest
  end.

(** A frame that gets gaze samples. *)
Definition gaze_sampled (obs : Observation) : bool :=
  detected obs && eye_model (face_model obs).

(** A frame that gets a sample of the bone [nm]. *)
Definition has_bone (nm : string) (obs : Observation) : bool :=
  detected obs && bool_decide (nm ∈ bone_names_of obs).

Section Streams.

Variable utf8_to_sjis : string -> string.
Variable AngleAxisd : float -> Vector3 -> Quaternion.
Variable quat_mul : Quaternion -> Quaternion -> Quaternion.
Variable quat_rotate : Quaternion -> Vector3 -> Vector3.
Variable FromTwoVectors : Vector3 -> Vector3 -> Quaternion.
Variable slerp : Quaternion -> float -> Quaternion -> Quaternion.
Variable gaze_through_pupil : CLNF -> nat -> bool -> Vector3.

(** The bone samples of one iteration. *)
Definition frame_bones (obs : Observation) (frame_number : Z) : list VMD_Frame.t :=
  if detected obs
  then bone_samples utf8_to_sjis AngleAxisd quat_mul quat_rotate FromTwoVectors
         slerp gaze_through_pupil obs frame_number
  else [].

(** The morph samples of one iteration. *)
Definition frame_morphs (obs : Observation) (frame_number : Z) : list VMD_Morph.t :=
  if detected obs
  then match get_action_unit (intensity obs) (presence obs) with
       | Ok au => morph_of utf8_to_sjis frame_number <$> expression_table au
       | Fault _ => []
       end
  else [].

(** The samples of a stream whose first frame is read at iteration [i]. *)
Fixpoint stream_bones (i : nat) (frames : list Observation) : list VMD_Frame.t :=
  match frames with
  | [] => []
  | obs :: rest => frame_bones obs (frame_index i) ++ stream_bones (S i) rest
  end.

Fixpoint stream_morphs (i : nat) (frames : list Observation) : list VMD_Morph.t :=
  match frames with
  | [] => []
  | obs :: rest => frame_morphs obs (frame_index i) ++ stream_morphs (S i) rest
  end.

End Streams.

(** A bone record as the mapper writes it: numbered by a 32-bit value, and
    either a rotation key of the head or of an eye, with no translation, or
    the position key of the centre, with no rotation. *)
Definition bone_record_shape (utf8_to_sjis : string -> string) (f : VMD_Frame.t) : Prop :=
  0 <= VMD_Frame.number f < 2 ^ 32 /\
  ((VMD_Frame.bonename f ∈ utf8_to_sjis <$> ["頭"; "左目"; "右目"]%string /\
    VMD_Frame.position f = Vector3_Zero) \/
   (VMD_Frame.bonename f = utf8_to_sjis "センター" /\
    VMD_Frame.rotation f = Quaternion_Identity)).

(** A morph record as the mapper writes it: one of the thirteen names, a
    32-bit frame number and a weight that is neither above 1 nor below 0. *)
Definition morph_record_shape (utf8_to_sjis : string -> string) (m : VMD_Morph.t) : Prop :=
  VMD_Morph.name m ∈ utf8_to_sjis <$> morph_names /\
  0 <= VMD_Morph.frame m < 2 ^ 32 /\
  (1 <? VMD_Morph.weight m)%float = false /\
  (VMD_Morph.weight m <? 0)%float = false.

(** ** Header fields *)

(** A text followed by nulls up to a width. *)
Definition null_padded (text : string) (width : nat) : list ascii :=
  list_ascii_of_string text ++ replicate (width - String.length text) NUL.

(** ** Inputs of the worked examples *)

(** An action-unit vector that is zero except at one id. *)
Definition au_single (a : AUID) (x : float) : list float :=
  <[AUID_value a := x]> (replicate AU_SIZE 0%float).

(** An action-unit vector that is zero except at two ids. *)
Definition au_pair (a : AUID) (x : float) (b : AUID) (y : float) : list float :=
  <[AUID_value b := y]> (au_single a x).

(** The encoding that keeps a name as it is. *)
Definition same_name (s : string) : string := s.

(** A still observation: a face is found, there is no eye model, the pose is
    zero and no action unit is reported. *)
Definition still_frame : Observation :=
  mkObservation true (mkCLNF false [] []) (mkVec6d 0 0 0 0 0 0) [] [].

(** A frame on which no face is found. *)
Definition lost_frame : Observation :=
  mkObservation false (mkCLNF false [] []) (mkVec6d 0 0 0 0 0 0) [] [].

(** A frame with both eye parts, a turned head and three action units. *)
Definition gazing_frame : Observation :=
  mkObservation true
    (mkCLNF true ["left_eye_28"; "right_eye_28"]%string [])
    (mkVec6d 10 20 1030 0.5 0.25 (-0.125))
    [("AU26", 3.0); ("AU05", 2.5); ("AU45", 1.5)]%string%float
    [("AU26", 1); ("AU05", 1); ("AU45", 1)]%string%float.

(** A frame whose face model has the left eye part only. *)
Definition one_eyed_frame : Observation :=
  mkObservation true (mkCLNF true ["left_eye_28"]%string [])
    (mkVec6d 0 0 0 0 0 0) [] [].

(** A frame on which OpenFace reports the jaw drop (AU26) present with the
    intensity [x], on its scale from 0 to 5. *)
Definition jaw_frame (x : float) : Observation :=
  mkObservation true (mkCLNF false [] []) (mkVec6d 0 0 0 0 0 0)
    [("AU26"%string, x)] [("AU26"%string, 1%float)].

(** A stream of [2^32 + 1] still frames. *)
Definition long_stream : list Observation :=
  replicate (Z.to_nat (2 ^ 32 - 1)) still_frame ++ [still_frame; still_frame].

(** The theorems hold for every choice of the functions of Eigen and
    OpenFace. The worked examples need one choice: the following stand-ins
    are not rotations, they only keep their arguments apart. *)
Definition standin_AngleAxisd (angle : float) (axis : Vector3) : Quaternion :=
  mkQuaternion angle (v_x axis) (v_y axis) (v_z axis).

Definition standin_quat_mul (a b : Quaternion) : Quaternion :=
  mkQuaternion (q_w a * q_w b - q_x a * q_x b - q_y a * q_y b - q_z a * q_z b)
               (q_w a * q_x b + q_x a * q_w b + q_y a * q_z b - q_z a * q_y b)
               (q_w a * q_y b + q_y a * q_w b + q_z a * q_x b - q_x a * q_z b)
               (q_w a * q_z b + q_z a * q_w b + q_x a * q_y b - q_y a * q_x b)%float.

Definition standin_quat_rotate (q : Quaternion) (v : Vector3) : Vector3 := v.

Definition standin_FromTwoVectors (a b : Vector3) : Quaternion :=
  mkQuaternion 1 (v_x b) (v_y b) (v_z b).

Definition standin_slerp (a : Quaternion) (t : float) (b : Quaternion) : Quaternion :=
  mkQuaternion (q_w b) (t * q_x b) (t * q_y b) (t * q_z b)%float.

Definition standin_gaze (clnf_model : CLNF) (part : nat) (left_eye : bool) : Vector3 :=
  if left_eye then mkVector3 (-0.25) 0 (-1) else mkVector3 0.25 0 (-1).

Definition example_process : VMD.t -> Z -> Observation -> outcome VMD.t :=
  process_frame same_name standin_AngleAxisd standin_quat_mul standin_quat_rotate
    standin_FromTwoVectors standin_slerp standin_gaze.

Definition example_mapping : list Observation -> outcome VMD.t :=
  mapping_phase same_name standin_AngleAxisd standin_quat_mul standin_quat_rotate
    standin_FromTwoVectors standin_slerp standin_gaze.


(** A face model whose parts are a left eye, a mouth, a second left eye and
    a right eye. *)
Definition two_left_eyes : CLNF :=
  mkCLNF true ["left_eye_28"; "mouth"; "left_eye_28"; "right_eye_28"]%string [].

(** A stand-in for the gaze estimation that tells the parts apart. *)
Definition standin_part_gaze (clnf_model : CLNF) (part : nat) (left_eye : bool)
  : Vector3 :=
  mkVector3 (of_uint63 (Uint63.of_Z (Z.of_nat part))) 0 (-1).

(** A header of the widths 30 and 20 that holds other characters. *)
Definition used_header : VMD_Header.t :=
  VMD_Header.mk (replicate 30 "x"%char) (replicate 20 "y"%char).

(** * Properties *)

(** ** The fault monad *)

Lemma bind_Ok {A B : Type} (a : A) (f : A -> outcome B) : (Ok a ≫= f) = f a.
Proof. reflexivity. Qed.

Lemma bind_Fault {A B : Type} (e : fault) (f : A -> outcome B) :
  (Fault e ≫= f) = Fault e.
Proof. reflexivity. Qed.

Lemma bind_Ok_inv {A B : Type} (m : outcome A) (f : A -> outcome B) (b : B) :
  (m ≫= f) = Ok b -> exists a, m = Ok a /\ f a = Ok b.
Proof. destruct m as [a|e]; [eauto|discriminate]. Qed.

(** ** Comparisons of binary64 floats *)

Lemma SFcompare_antisym (x y : spec_float) :
  SFcompare y x = option_map CompOpp (SFcompare x y).
Proof.
  destruct x as [sx|sx| |sx mx ex], y as [sy|sy| |sy my ey]; simpl;
    try (destruct sx); try (destruct sy); try reflexivity;
    rewrite (Z.compare_antisym ex ey);
    destruct (ex ?= ey)%Z eqn:E; simpl; try reflexivity;
    rewrite (ZC4 my mx);
    destruct (Pos.compare_cont Eq mx my); reflexivity.
Qed.

Lemma is_nan_Prim2SF (x : float) :
  is_nan x = false -> Prim2SF x <> S754_nan.
Proof.
  unfold is_nan. rewrite FloatAxioms.eqb_spec. unfold SFeqb.
  intros H E. rewrite E in H. discriminate H.
Qed.

Lemma SFcompare_total (x y : spec_float) :
  x <> S754_nan -> y <> S754_nan -> exists c, SFcompare x y = Some c.
Proof.
  intros Hx Hy.
  destruct x as [sx|sx| |sx mx ex], y as [sy|sy| |sy my ey];
    try congruence; simpl; eauto.
Qed.

(** On numbers, "not less than" is "greater than or equal to". *)
Lemma float_not_ltb_leb (a b : float) :
  is_nan a = false -> is_nan b = false ->
  (a <? b)%float = false -> (b <=? a)%float = true.
Proof.
  intros Ha Hb. rewrite FloatAxioms.ltb_spec, FloatAxioms.leb_spec. unfold SFltb, SFleb.
  apply is_nan_Prim2SF in Ha, Hb.
  destruct (SFcompare_total _ _ Ha Hb) as [c Hc].
  rewrite (SFcompare_antisym (Prim2SF a) (Prim2SF b)), Hc.
  destruct c; simpl; congruence.
Qed.

(** A NaN compares false with everything. *)
Lemma float_nan_ltb (a b : float) :
  is_nan a = true \/ is_nan b = true -> (a <? b)%float = false.
Proof.
  unfold is_nan. rewrite !FloatAxioms.eqb_spec, FloatAxioms.ltb_spec. unfold SFeqb, SFltb.
  destruct (Prim2SF a) as [sx|sx| |sx mx ex], (Prim2SF b) as [sy|sy| |sy my ey];
    try reflexivity; simpl.
  all: try (destruct sx); try (destruct sy); simpl.
  all: rewrite ?Z.compare_refl, ?Pos.compare_cont_refl; simpl.
  all: intros [H|H]; discriminate H.
Qed.

(** Two floats that [=?] tells apart are different; the first one is a
    number. *)
Lemma float_neq_by_eqb (a b : float) :
  (a =? a)%float = true -> (a =? b)%float = false -> a <> b.
Proof. intros Ha Hab E. subst b. congruence. Qed.

(** ** The clamp of [add_morph_frame] *)

Lemma clamp01_in_unit_interval (w : float) :
  is_nan w = false -> in_unit_interval (clamp01 w) = true.
Proof.
  intros Hw. unfold clamp01, in_unit_interval.
  destruct (1.0 <? w)%float eqn:H1; [reflexivity|].
  destruct (w <? 0.0)%float eqn:H0; [reflexivity|].
  rewrite (float_not_ltb_leb w 0 Hw eq_refl H0).
  rewrite (float_not_ltb_leb 1 w eq_refl Hw H1). reflexivity.
Qed.

Lemma clamp01_nan (w : float) : is_nan w = true -> clamp01 w = w.
Proof.
  intros Hw. unfold clamp01.
  rewrite (float_nan_ltb 1 w) by (right; exact Hw).
  rewrite (float_nan_ltb w 0) by (left; exact Hw). reflexivity.
Qed.

Lemma clamp01_never_outside (w : float) :
  (1 <? clamp01 w)%float = false /\ (clamp01 w <? 0)%float = false.
Proof.
  unfold clamp01.
  destruct (1.0 <? w)%float eqn:H1; [split; reflexivity|].
  destruct (w <? 0.0)%float eqn:H0; [split; reflexivity|].
  split; assumption.
Qed.

Lemma in_unit_interval_not_nan (w : float) :
  in_unit_interval w = true -> is_nan w = false.
Proof.
  unfold in_unit_interval, is_nan. rewrite FloatAxioms.leb_spec, FloatAxioms.eqb_spec.
  unfold SFleb, SFeqb.
  destruct (Prim2SF w) as [s|s| |s m e]; simpl; try discriminate;
    try (destruct s; reflexivity).
  destruct s; rewrite Z.compare_refl, Pos.compare_cont_refl; reflexivity.
Qed.

(** ** Records with keys *)

Lemma NoDup_morph_names : NoDup morph_names.
Proof. apply (bool_decide_unpack _). vm_compute. reflexivity. Qed.

Lemma NoDup_bone_names : NoDup bone_names.
Proof. apply (bool_decide_unpack _). vm_compute. reflexivity. Qed.

(** Records that carry pairwise different keys: a key selects at most one. *)
Lemma filter_key_at_most_one {A : Type} (key : A -> string) (nm : string)
    (l : list A) :
  NoDup (key <$> l) ->
  filter (fun a => key a = nm) l = [] \/
  exists a, a ∈ l /\ key a = nm /\ filter (fun a => key a = nm) l = [a].
Proof.
  induction l as [|a l IH]; intros Hnd; [left; reflexivity|].
  rewrite fmap_cons in Hnd. apply NoDup_cons in Hnd as [Hnotin Hnd].
  rewrite filter_cons. destruct (decide (key a = nm)) as [E|E].
  - right. exists a. split; [left|split; [exact E|]].
    f_equal. destruct (IH Hnd) as [H|(b & Hb & Hk & _)]; [exact H|].
    exfalso. apply Hnotin. rewrite E, <- Hk. apply list_elem_of_fmap.
    exists b. split; [reflexivity|exact Hb].
  - destruct (IH Hnd) as [H|(b & Hb & Hk & H)]; [left; exact H|].
    right. exists b. split; [right; exact Hb|split; assumption].
Qed.

Lemma filter_key_none {A : Type} (key : A -> string) (nm : string) (l : list A) :
  nm ∉ key <$> l -> filter (fun a => key a = nm) l = [].
Proof.
  induction l as [|a l IH]; intros Hn; [reflexivity|].
  rewrite fmap_cons in Hn. apply not_elem_of_cons in Hn as [Hne Hn].
  rewrite filter_cons, decide_False by congruence. apply IH, Hn.
Qed.

(** Among records with pairwise different keys, a record is the whole
    channel of its key. *)
Lemma filter_key_unique {A : Type} (key : A -> string) (nm : string)
    (l : list A) (a : A) :
  NoDup (key <$> l) -> a ∈ l -> key a = nm ->
  filter (fun a => key a = nm) l = [a].
Proof.
  intros Hnd Ha Hk.
  assert (Hmem : a ∈ filter (fun a => key a = nm) l)
    by (apply list_elem_of_filter; split; assumption).
  destruct (filter_key_at_most_one key nm l Hnd) as [H|(b & _ & _ & H)];
    rewrite H in Hmem |- *.
  - inversion Hmem.
  - apply list_elem_of_singleton in Hmem. subst b. reflexivity.
Qed.

(** An association list without repeated keys is functional. *)
Lemma NoDup_fst_functional {A B : Type} (l : list (A * B)) (k : A) (x y : B) :
  NoDup l.*1 -> (k, x) ∈ l -> (k, y) ∈ l -> x = y.
Proof.
  induction l as [|[k' z] l IH]; intros Hnd Hx Hy; [inversion Hx|].
  rewrite fmap_cons in Hnd. apply NoDup_cons in Hnd as [Hnotin Hnd].
  apply elem_of_cons in Hx as [Hx|Hx], Hy as [Hy|Hy].
  - congruence.
  - exfalso. apply Hnotin. injection Hx as -> ->.
    apply list_elem_of_fmap. exists (k', y). split; [reflexivity|exact Hy].
  - exfalso. apply Hnotin. injection Hy as -> ->.
    apply list_elem_of_fmap. exists (k', x). split; [reflexivity|exact Hx].
  - apply IH; assumption.
Qed.

(** One more frame: records numbered [n] with pairwise different keys, put
    after records numbered below [n], keep every channel increasing. *)
Lemma keyed_channel_step {A : Type} (key : A -> string) (idx : A -> Z)
    (old new : list A) (n : Z) :
  (forall nm, strictly_increasing (idx <$> filter (fun a => key a = nm) old)) ->
  Forall (fun a => idx a < n) old ->
  Forall (fun a => idx a = n) new ->
  NoDup (key <$> new) ->
  forall nm, strictly_increasing (idx <$> filter (fun a => key a = nm) (old ++ new)).
Proof.
  intros Hold Hlt Heq Hnd nm. unfold strictly_increasing.
  rewrite filter_app, fmap_app. apply StronglySorted_app_2.
  - intros x1 x2 H1 H2.
    apply list_elem_of_fmap in H1 as (a1 & -> & H1).
    apply list_elem_of_fmap in H2 as (a2 & -> & H2).
    apply list_elem_of_filter in H1 as [_ H1], H2 as [_ H2].
    rewrite Forall_forall in Hlt, Heq.
    rewrite (Heq a2 H2). apply Hlt, H1.
  - apply Hold.
  - destruct (filter_key_at_most_one key nm new Hnd) as [H|(b & _ & _ & H)];
      rewrite H; simpl; repeat constructor.
Qed.

Lemma morph_channel_app (nm : string) (l1 l2 : list VMD_Morph.t) :
  morph_channel nm (l1 ++ l2) = morph_channel nm l1 ++ morph_channel nm l2.
Proof. apply filter_app. Qed.

Lemma bone_channel_app (nm : string) (l1 l2 : list VMD_Frame.t) :
  bone_channel nm (l1 ++ l2) = bone_channel nm l1 ++ bone_channel nm l2.
Proof. apply filter_app. Qed.

Lemma morph_series_app (nm : string) (l1 l2 : list VMD_Morph.t) :
  morph_series nm (l1 ++ l2) = morph_series nm l1 ++ morph_series nm l2.
Proof. unfold morph_series. rewrite morph_channel_app, fmap_app. reflexivity. Qed.

(** ** Reading the action units *)

Lemma au_id_cases (label : string) :
  au_id label = Ok (label_id label) \/ au_id label = Fault SubstrOutOfRange.
Proof.
  unfold au_id, substr. destruct (String.length label <? 2)%nat; [right|left]; reflexivity.
Qed.

Lemma au_id_ok (label : string) :
  (2 <= String.length label)%nat -> au_id label = Ok (label_id label).
Proof.
  intros H. unfold au_id, substr.
  destruct (String.length label <? 2)%nat eqn:E; [|reflexivity].
  apply Nat.ltb_lt in E. lia.
Qed.

Lemma store_ok_inv {A} (arr arr' : list A) id x :
  store arr id x = Ok arr' ->
  0 <= id < Z.of_nat (length arr) /\ arr' = <[Z.to_nat id := x]> arr.
Proof.
  unfold store. destruct (decide _); [|discriminate]. intros [= <-]. split; [assumption|reflexivity].
Qed.

Lemma read_valid_ok_inv (valid : list (option bool)) (id : Z) (b : bool) :
  read_valid valid id = Ok b ->
  0 <= id < Z.of_nat (length valid) /\ valid !! Z.to_nat id = Some (Some b).
Proof.
  unfold read_valid. destruct (decide _) as [Hr|]; [|discriminate].
  destruct (valid !! Z.to_nat id) as [[b'|]|]; try discriminate.
  intros [= <-]. split; [exact Hr|reflexivity].
Qed.

Lemma last_report_member (m : list (string * float)) (p : string * float) :
  p ∈ m -> exists v, last_report m (label_id (fst p)) = Some v.
Proof.
  induction m as [|q rest IH]; intros Hp; [inversion Hp|].
  simpl. apply elem_of_cons in Hp as [->|Hp].
  - destruct (last_report rest (label_id (fst q))) as [v|]; [eauto|].
    rewrite decide_True by reflexivity. eauto.
  - destruct (IH Hp) as [v Hv]. rewrite Hv. eauto.
Qed.

Lemma presence_loop_spec (presence : list (string * float)) :
  forall valid valid',
  presence_loop presence valid = Ok valid' ->
  length valid' = length valid /\
  Forall (fun p => 0 <= label_id (fst p) < Z.of_nat (length valid)) presence /\
  forall i : nat, (i < length valid)%nat ->
    valid' !! i =
    match last_report presence (Z.of_nat i) with
    | Some f => Some (Some (if (f =? 0)%float then false else true))
    | None => valid !! i
    end.
Proof.
  induction presence as [|p rest IH]; intros valid valid' Hrun.
  - simpl in Hrun. injection Hrun as <-. split; [reflexivity|]. split; [constructor|].
    reflexivity.
  - simpl in Hrun. apply bind_Ok_inv in Hrun as (id & Hid & Hrun).
    apply bind_Ok_inv in Hrun as (valid1 & Hst & Hrun).
    destruct (au_id_cases (fst p)) as [E|E]; rewrite E in Hid; [|discriminate].
    injection Hid as <-.
    apply store_ok_inv in Hst as [Hrange ->].
    destruct (IH _ _ Hrun) as (Hlen & Hall & Hslots).
    rewrite length_insert in Hlen, Hall, Hslots.
    split; [exact Hlen|]. split; [constructor; assumption|].
    intros i Hi. rewrite (Hslots i Hi). simpl.
    destruct (last_report rest (Z.of_nat i)) as [f|]; [reflexivity|].
    destruct (decide (label_id (fst p) = Z.of_nat i)) as [Heq|Hne].
    + rewrite Heq, Nat2Z.id. rewrite list_lookup_insert_eq by exact Hi. reflexivity.
    + rewrite list_lookup_insert_ne; [reflexivity|]. intros <-. apply Hne. rewrite Z2Nat.id; lia.
Qed.

Lemma presence_loop_no_read (presence : list (string * float)) :
  forall valid id, presence_loop presence valid <> Fault (IndeterminateRead id).
Proof.
  induction presence as [|p rest IH]; intros valid id; [discriminate|].
  simpl. destruct (au_id_cases (fst p)) as [E|E]; rewrite E; [|discriminate].
  rewrite bind_Ok. unfold store. destruct (decide _); [|discriminate].
  rewrite bind_Ok. apply IH.
Qed.

Lemma presence_loop_total (presence : list (string * float)) :
  forall valid,
  Forall (fun p => (2 <= String.length (fst p))%nat /\
                   0 <= label_id (fst p) < Z.of_nat (length valid)) presence ->
  exists valid', presence_loop presence valid = Ok valid'.
Proof.
  induction presence as [|p rest IH]; intros valid Hok; [eexists; reflexivity|].
  apply Forall_cons in Hok as [[Hl Hr] Hok].
  simpl. rewrite (au_id_ok _ Hl), bind_Ok. unfold store.
  rewrite decide_True by exact Hr. rewrite bind_Ok. apply IH.
  rewrite length_insert. exact Hok.
Qed.

(** The intensity loop reads only slots that were written when the ids of
    its labels are covered. *)
Lemma intensity_loop_no_read (intensity : list (string * float))
    (valid : list (option bool)) :
  (forall p, p ∈ intensity -> 0 <= label_id (fst p) < Z.of_nat (length valid) ->
     exists b, valid !! Z.to_nat (label_id (fst p)) = Some (Some b)) ->
  forall au id, intensity_loop intensity valid au <> Fault (IndeterminateRead id).
Proof.
  induction intensity as [|p rest IH]; intros Hcov au id; [discriminate|].
  simpl. destruct (au_id_cases (fst p)) as [E|E]; rewrite E; [|discriminate].
  rewrite bind_Ok. unfold read_valid at 1.
  destruct (decide _) as [Hr|]; [|discriminate].
  destruct (Hcov p ltac:(left) Hr) as [b Hb]. rewrite Hb, bind_Ok.
  assert (Hrest : forall au', intensity_loop rest valid au' <> Fault (IndeterminateRead id)).
  { intros au'. apply IH. intros q Hq. apply Hcov. right. exact Hq. }
  destruct b; [|rewrite bind_Ok; apply Hrest].
  unfold store. destruct (decide _); [|discriminate]. rewrite bind_Ok. apply Hrest.
Qed.

Lemma intensity_loop_spec (intensity : list (string * float))
    (valid : list (option bool)) :
  forall au au',
  intensity_loop intensity valid au = Ok au' ->
  length au' = length au /\
  forall i : nat, (i < length au)%nat ->
    au' !! i =
    match last_report intensity (Z.of_nat i), valid !! i with
    | Some v, Some (Some true) => Some (v / ACTION_UNIT_MAXVAL)%float
    | _, _ => au !! i
    end.
Proof.
  induction intensity as [|p rest IH]; intros au au' Hrun.
  - simpl in Hrun. injection Hrun as <-. split; [reflexivity|]. reflexivity.
  - simpl in Hrun. apply bind_Ok_inv in Hrun as (id & Hid & Hrun).
    apply bind_Ok_inv in Hrun as (b & Hb & Hrun).
    apply bind_Ok_inv in Hrun as (au1 & Hau1 & Hrun).
    destruct (au_id_cases (fst p)) as [E|E]; rewrite E in Hid; [|discriminate].
    injection Hid as <-.
    apply read_valid_ok_inv in Hb as [Hr Hb].
    destruct (IH _ _ Hrun) as (Hlen & Hslots).
    assert (Hlen1 : length au1 = length au).
    { destruct b; [apply store_ok_inv in Hau1 as [_ ->]; apply length_insert|
                   injection Hau1 as <-; reflexivity]. }
    split; [congruence|].
    intros i Hi. rewrite (Hslots i ltac:(lia)). simpl.
    destruct (decide (label_id (fst p) = Z.of_nat i)) as [Heq|Hne].
    + rewrite Heq, Nat2Z.id in Hb. rewrite Hb.
      destruct (last_report rest (Z.of_nat i)) as [v|].
      * destruct b; [reflexivity|]. injection Hau1 as <-. reflexivity.
      * destruct b.
        -- apply store_ok_inv in Hau1 as [_ ->]. rewrite Heq, Nat2Z.id.
           apply list_lookup_insert_eq. exact Hi.
        -- injection Hau1 as <-. reflexivity.
    + assert (Hsame : au1 !! i = au !! i).
      { destruct b; [|injection Hau1 as <-; reflexivity].
        apply store_ok_inv in Hau1 as [_ ->].
        apply list_lookup_insert_ne. intros <-. apply Hne. rewrite Z2Nat.id; lia. }
      rewrite Hsame.
      destruct (last_report rest (Z.of_nat i)) as [v|]; reflexivity.
Qed.

Lemma intensity_loop_total (intensity : list (string * float))
    (valid : list (option bool)) :
  Forall (fun p => (2 <= String.length (fst p))%nat /\
                   0 <= label_id (fst p) < Z.of_nat (length valid) /\
                   exists b, valid !! Z.to_nat (label_id (fst p)) = Some (Some b))
         intensity ->
  forall au, length au = length valid ->
  exists au', intensity_loop intensity valid au = Ok au'.
Proof.
  induction 1 as [|p rest (Hl & Hr & b & Hb) _ IH]; intros au Hlen;
    [eexists; reflexivity|].
  simpl. rewrite (au_id_ok _ Hl), bind_Ok. unfold read_valid.
  rewrite decide_True by exact Hr. rewrite Hb, bind_Ok.
  destruct b; [|rewrite bind_Ok; apply IH, Hlen].
  unfold store. rewrite decide_True by (rewrite Hlen; exact Hr).
  rewrite bind_Ok. apply IH. rewrite length_insert. exact Hlen.
Qed.

(** C9: when every id of the intensity vector also occurs in the presence
    vector, [get_action_unit] never reads a slot of [valid] that was not
    written; and, on labels that carry an id of the array, it returns the
    array whose slot [i] is the last intensity reported for [i] divided by
    5.0 when the last presence reported for [i] is not zero, and 0.0
    otherwise. *)
Theorem get_action_unit_reads_written (intensity presence : list (string * float)) :
  (forall p, p ∈ intensity ->
     exists q, q ∈ presence /\ label_id (fst q) = label_id (fst p)) ->
  (forall id, get_action_unit intensity presence <> Fault (IndeterminateRead id)) /\
  (Forall (fun p => label_ok (fst p)) (presence ++ intensity) ->
   exists au,
     get_action_unit intensity presence = Ok au
     /\ length au = AU_SIZE
     /\ forall i : nat, (i < AU_SIZE)%nat ->
          au !! i = Some (expected_slot intensity presence (Z.of_nat i))).
Proof.
  intros Hsub.
  assert (Hcov : forall valid,
             presence_loop presence (replicate AU_SIZE None) = Ok valid ->
             forall p, p ∈ intensity ->
               0 <= label_id (fst p) < Z.of_nat (length valid) ->
               exists b, valid !! Z.to_nat (label_id (fst p)) = Some (Some b)).
  { intros valid Hrun p Hp Hr.
    destruct (presence_loop_spec _ _ _ Hrun) as (Hlen & _ & Hslots).
    destruct (Hsub p Hp) as (q & Hq & Heq).
    destruct (last_report_member presence q Hq) as [f Hf].
    rewrite Hlen in Hr. rewrite (Hslots (Z.to_nat (label_id (fst p)))) by lia.
    rewrite Z2Nat.id by lia. rewrite <- Heq, Hf. eauto. }
  split.
  - intros id. unfold get_action_unit.
    destruct (presence_loop presence (replicate AU_SIZE None)) as [valid|e] eqn:Hrun.
    + rewrite bind_Ok. apply intensity_loop_no_read, (Hcov valid eq_refl).
    + rewrite bind_Fault. intros E. injection E as ->.
      exact (presence_loop_no_read _ _ _ Hrun).
  - intros Hok. apply Forall_app in Hok as [Hokp Hoki].
    destruct (presence_loop_total presence (replicate AU_SIZE None)) as [valid Hrun].
    { rewrite length_replicate. exact Hokp. }
    destruct (presence_loop_spec _ _ _ Hrun) as (Hlen & _ & Hslots).
    rewrite length_replicate in Hlen, Hslots.
    destruct (intensity_loop_total intensity valid) with (au := replicate AU_SIZE 0%float)
      as [au Hau].
    { rewrite Forall_forall in Hoki |- *. intros p Hp.
      destruct (Hoki p Hp) as [Hl Hr]. rewrite Hlen.
      split; [exact Hl|]. split; [exact Hr|].
      apply (Hcov valid Hrun p Hp). rewrite Hlen. exact Hr. }
    { rewrite length_replicate, Hlen. reflexivity. }
    exists au. unfold get_action_unit. rewrite Hrun, bind_Ok.
    split; [exact Hau|].
    destruct (intensity_loop_spec _ _ _ _ Hau) as (Hlau & Hau_slots).
    rewrite length_replicate in Hlau, Hau_slots.
    split; [exact Hlau|].
    intros i Hi. rewrite (Hau_slots i Hi), (Hslots i Hi). unfold expected_slot.
    rewrite !lookup_replicate_2 by exact Hi.
    destruct (last_report intensity (Z.of_nat i)) as [v|]; [|reflexivity].
    destruct (last_report presence (Z.of_nat i)) as [f|]; [|reflexivity].
    destruct (f =? 0)%float; reflexivity.
Qed.

(** The theorem on two labels: AU01 is present, AU45 is not. *)
Lemma get_action_unit_reads_written_witness :
  exists au,
    get_action_unit [("AU01", 2.5); ("AU45", 4)]%string%float
                    [("AU01", 1); ("AU45", 0)]%string%float = Ok au
    /\ length au = AU_SIZE
    /\ forall i : nat, (i < AU_SIZE)%nat ->
         au !! i
         = Some (expected_slot [("AU01", 2.5); ("AU45", 4)]%string%float
                   [("AU01", 1); ("AU45", 0)]%string%float (Z.of_nat i)).
Proof.
  apply get_action_unit_reads_written.
  - intros p Hp. apply list_elem_of_In in Hp.
    destruct Hp as [<-|[<-|[]]];
      [exists ("AU01"%string, 1%float)|exists ("AU45"%string, 0%float)];
      (split; [apply list_elem_of_In; simpl; tauto|reflexivity]).
  - repeat constructor; vm_compute; congruence.
Defined.

(** The slots of the same call. *)
Lemma units_example :
  exists au,
    get_action_unit [("AU01", 2.5); ("AU45", 4)]%string%float
                    [("AU01", 1); ("AU45", 0)]%string%float = Ok au
    /\ au !! 1%nat = Some 0.5%float /\ au !! 45%nat = Some 0%float.
Proof. eexists. split; [vm_compute; reflexivity|]. split; reflexivity. Qed.

(** A read of a slot that was never written: the intensity vector names an
    id the presence vector does not. *)
Lemma uncovered_id_reads_indeterminate :
  get_action_unit [("AU07", 1%float)]%string [] = Fault (IndeterminateRead 7).
Proof. reflexivity. Qed.

(** ** Morph samples of one frame *)

Lemma expression_table_names (au : list float) :
  (expression_table au).*1 = morph_names.
Proof. reflexivity. Qed.

Ltac table_entry := apply list_elem_of_In; simpl; tauto.

Section MorphSamples.

Variable utf8_to_sjis : string -> string.

Lemma add_morph_frame_eq (morph_vec : list VMD_Morph.t) (name : string)
    (frame_number : Z) (weight : float) :
  add_morph_frame utf8_to_sjis morph_vec name frame_number weight =
  morph_vec ++ [VMD_Morph.mk (utf8_to_sjis name) frame_number (clamp01 weight)].
Proof. reflexivity. Qed.

Lemma estimate_facial_expression_eq (morph_vec : list VMD_Morph.t)
    (au : list float) (frame_number : Z) :
  estimate_facial_expression utf8_to_sjis morph_vec au frame_number =
  morph_vec ++ (morph_of utf8_to_sjis frame_number <$> expression_table au).
Proof.
  unfold estimate_facial_expression. rewrite !add_morph_frame_eq.
  rewrite <- !app_assoc. reflexivity.
Qed.

(** The encoding keeps the morph names of the mapper apart. *)
Hypothesis utf8_to_sjis_morph_inj :
  forall a b : string, a ∈ morph_names -> b ∈ morph_names ->
    utf8_to_sjis a = utf8_to_sjis b -> a = b.

Lemma NoDup_morph_of (frame_number : Z) (tbl : list (string * float)) :
  NoDup tbl.*1 -> tbl.*1 ⊆ morph_names ->
  NoDup (VMD_Morph.name <$> (morph_of utf8_to_sjis frame_number <$> tbl)).
Proof using utf8_to_sjis_morph_inj.
  intros Hnd Hsub. rewrite <- list_fmap_compose.
  change (VMD_Morph.name ∘ morph_of utf8_to_sjis frame_number)
    with (utf8_to_sjis ∘ (fst : string * float -> string)).
  rewrite list_fmap_compose. apply NoDup_fmap_2_strong; [|exact Hnd].
  intros a b Ha Hb. apply utf8_to_sjis_morph_inj; apply Hsub; assumption.
Qed.

(** Under a name of the table, the channel of one frame's samples is the
    one sample made from the entry of that name. *)
Lemma morph_channel_of_table (frame_number : Z) (tbl : list (string * float))
    (nm : string) (x : float) :
  NoDup tbl.*1 -> tbl.*1 ⊆ morph_names -> (nm, x) ∈ tbl ->
  morph_channel (utf8_to_sjis nm) (morph_of utf8_to_sjis frame_number <$> tbl) =
  [morph_of utf8_to_sjis frame_number (nm, x)].
Proof using utf8_to_sjis_morph_inj.
  intros Hnd Hsub Hin. unfold morph_channel.
  destruct (filter_key_at_most_one VMD_Morph.name (utf8_to_sjis nm)
              (morph_of utf8_to_sjis frame_number <$> tbl)
              (NoDup_morph_of frame_number tbl Hnd Hsub))
    as [Hnone|(m & Hm & Hk & Heq)].
  - exfalso.
    assert (Hmem : morph_of utf8_to_sjis frame_number (nm, x) ∈
              filter (fun m => VMD_Morph.name m = utf8_to_sjis nm)
                     (morph_of utf8_to_sjis frame_number <$> tbl)).
    { apply list_elem_of_filter. split; [reflexivity|].
      apply list_elem_of_fmap. exists (nm, x). split; [reflexivity|exact Hin]. }
    rewrite Hnone in Hmem. inversion Hmem.
  - rewrite Heq. f_equal.
    apply list_elem_of_fmap in Hm as ([nm' x'] & -> & Hin').
    simpl in Hk.
    assert (nm' = nm).
    { apply utf8_to_sjis_morph_inj; [| |exact Hk]; apply Hsub;
        apply list_elem_of_fmap; [exists (nm', x')|exists (nm, x)];
        split; try reflexivity; assumption. }
    subst nm'. f_equal.
    rewrite (NoDup_fst_functional tbl nm x x' Hnd Hin Hin'). reflexivity.
Qed.

(** The channel of one frame's samples under a name of the table. *)
Lemma morph_channel_of_expression (au : list float) (frame_number : Z)
    (nm : string) (x : float) :
  (nm, x) ∈ expression_table au ->
  morph_channel (utf8_to_sjis nm)
    (morph_of utf8_to_sjis frame_number <$> expression_table au)
  = [VMD_Morph.mk (utf8_to_sjis nm) frame_number (clamp01 (double_to_float x))].
Proof using utf8_to_sjis_morph_inj.
  intros Hin.
  apply morph_channel_of_table;
    [| |exact Hin]; rewrite expression_table_names;
    [apply NoDup_morph_names|reflexivity].
Qed.

(** C2, as amended: the "あ" weight is twice the jaw-drop intensity, and the
    "い" weight is twice the lip-part intensity when both unclamped "あ" and
    "う" values are below 0.1 and is 0 otherwise; each is converted to single
    precision and clamped to [0,1] when stored. Jaw-drop intensities 0.0,
    0.6, 0.0 at the frames 0, 1, 2 give the "あ" weights 0.0, 1.0, 0.0. *)
Theorem mouth_weights :
  (forall (morph_vec : list VMD_Morph.t) (au : list float) (frame_number : Z),
      exists new,
        estimate_facial_expression utf8_to_sjis morph_vec au frame_number
          = morph_vec ++ new
        /\ morph_channel (utf8_to_sjis "あ") new
           = [VMD_Morph.mk (utf8_to_sjis "あ") frame_number
                (clamp01 (double_to_float (au_at au JawDrop * 2)%float))]
        /\ morph_channel (utf8_to_sjis "い") new
           = [VMD_Morph.mk (utf8_to_sjis "い") frame_number
                (if ((au_at au JawDrop * 2 <? 0.1) &&
                     (au_at au LipTightener * 2 <? 0.1))%float
                 then clamp01 (double_to_float (au_at au LipPart * 2)%float)
                 else 0%float)]) /\
  (let run :=
     estimate_facial_expression utf8_to_sjis
       (estimate_facial_expression utf8_to_sjis
          (estimate_facial_expression utf8_to_sjis [] (au_single JawDrop 0.0) 0)
          (au_single JawDrop 0.6) 1)
       (au_single JawDrop 0.0) 2 in
   morph_series (utf8_to_sjis "あ") run
   = [(0, 0.0%float); (1, 1.0%float); (2, 0.0%float)]).
Proof using utf8_to_sjis_morph_inj.
  split.
  - intros morph_vec au frame_number.
    exists (morph_of utf8_to_sjis frame_number <$> expression_table au).
    split; [apply estimate_facial_expression_eq|]. split.
    + apply morph_channel_of_expression. table_entry.
    + erewrite morph_channel_of_expression by table_entry.
      destruct ((au_at au JawDrop * 2 <? 0.1) &&
                (au_at au LipTightener * 2 <? 0.1))%float; reflexivity.
  - cbv zeta. unfold morph_series.
    rewrite !estimate_facial_expression_eq, !morph_channel_app.
    rewrite !(morph_channel_of_expression _ _ "あ" _) by table_entry.
    vm_compute. reflexivity.
Qed.

(** C3, as amended: the "まばたき" weight is the lid-tightener (AU07)
    intensity, converted to single precision and clamped to [0,1], except
    that it is exactly 1.0 whenever the blink (AU45) intensity strictly
    exceeds 0.2, whatever the lid-tightener value. *)
Theorem blink_weight (morph_vec : list VMD_Morph.t) (au : list float)
    (frame_number : Z) :
  exists new,
    estimate_facial_expression utf8_to_sjis morph_vec au frame_number
      = morph_vec ++ new
    /\ morph_channel (utf8_to_sjis "まばたき") new
       = [VMD_Morph.mk (utf8_to_sjis "まばたき") frame_number
            (if (0.2 <? au_at au Blink)%float then 1.0%float
             else clamp01 (double_to_float (au_at au LidTightener)))].
Proof using utf8_to_sjis_morph_inj.
  exists (morph_of utf8_to_sjis frame_number <$> expression_table au).
  split; [apply estimate_facial_expression_eq|].
  erewrite morph_channel_of_expression by table_entry.
  destruct (0.2 <? au_at au Blink)%float; reflexivity.
Qed.

End MorphSamples.

Lemma same_name_morph_inj (a b : string) :
  a ∈ morph_names -> b ∈ morph_names -> same_name a = same_name b -> a = b.
Proof. intros _ _ H. exact H. Qed.

(** The scenario of C2 with the names kept as they are. *)
Lemma mouth_weights_witness :
  morph_series (same_name "あ")
    (estimate_facial_expression same_name
       (estimate_facial_expression same_name
          (estimate_facial_expression same_name [] (au_single JawDrop 0.0) 0)
          (au_single JawDrop 0.6) 1)
       (au_single JawDrop 0.0) 2)
  = [(0, 0.0%float); (1, 1.0%float); (2, 0.0%float)].
Proof. exact (proj2 (mouth_weights same_name same_name_morph_inj)). Defined.

(** C2 as stated fails for "い": with no jaw drop and no lip tightening, a
    lip-part intensity of 0.75 gives the weight 1.0, not twice 0.75. *)
Lemma ee_weight_is_clamped :
  ((au_at (au_single LipPart 0.75) JawDrop * 2 <? 0.1)%float = true
   /\ (au_at (au_single LipPart 0.75) LipTightener * 2 <? 0.1)%float = true
   /\ au_at (au_single LipPart 0.75) LipPart = 0.75%float) /\
  forall utf8_to_sjis : string -> string,
    exists m,
      estimate_facial_expression utf8_to_sjis [] (au_single LipPart 0.75) 0
        !! 1%nat = Some m
      /\ VMD_Morph.name m = utf8_to_sjis "い"
      /\ VMD_Morph.weight m = 1.0%float
      /\ VMD_Morph.weight m <> (au_at (au_single LipPart 0.75) LipPart * 2)%float.
Proof.
  split; [repeat split; vm_compute; reflexivity|].
  intros utf8_to_sjis. eexists. split; [reflexivity|].
  split; [reflexivity|]. split; [vm_compute; reflexivity|].
  apply float_neq_by_eqb; vm_compute; reflexivity.
Qed.

(** The scenario of C3: a blink intensity of 0.25 forces the weight 1.0 at
    frame 5 over a lid-tightener intensity of 0.1. *)
Lemma blink_weight_witness :
  exists new,
    estimate_facial_expression same_name []
      (au_pair Blink 0.25 LidTightener 0.1) 5 = [] ++ new
    /\ morph_channel (same_name "まばたき") new
       = [VMD_Morph.mk (same_name "まばたき") 5 1.0%float].
Proof.
  exact (blink_weight same_name same_name_morph_inj []
           (au_pair Blink 0.25 LidTightener 0.1) 5).
Defined.

(** C3 as stated fails above 1: with no blink, a lid-tightener intensity of
    1.5 gives the weight 1.0, not 1.5. *)
Lemma blink_weight_is_clamped :
  ((0.2 <? au_at (au_single LidTightener 1.5) Blink)%float = false
   /\ au_at (au_single LidTightener 1.5) LidTightener = 1.5%float) /\
  forall utf8_to_sjis : string -> string,
    exists m,
      estimate_facial_expression utf8_to_sjis [] (au_single LidTightener 1.5) 0
        !! 5%nat = Some m
      /\ VMD_Morph.name m = utf8_to_sjis "まばたき"
      /\ VMD_Morph.weight m = 1.0%float
      /\ VMD_Morph.weight m <> au_at (au_single LidTightener 1.5) LidTightener.
Proof.
  split; [split; vm_compute; reflexivity|].
  intros utf8_to_sjis. eexists. split; [reflexivity|].
  split; [reflexivity|]. split; [vm_compute; reflexivity|].
  apply float_neq_by_eqb; vm_compute; reflexivity.
Qed.

(** C1, as amended: every weight that is a number is stored in [0,1].
    [add_morph_frame] pushes one sample whose weight is the clamp of its
    argument, and the clamp of a number lies in the unit interval; so every
    sample [estimate_facial_expression] appends has a weight in [0,1] unless
    that weight is NaN. *)
Theorem morph_weight_in_unit_interval (utf8_to_sjis : string -> string) :
  (forall (morph_vec : list VMD_Morph.t) (name : string) (frame_number : Z)
          (weight : float),
      is_nan weight = false ->
      exists m,
        add_morph_frame utf8_to_sjis morph_vec name frame_number weight
          = morph_vec ++ [m]
        /\ in_unit_interval (VMD_Morph.weight m) = true) /\
  (forall (morph_vec : list VMD_Morph.t) (au : list float) (frame_number : Z),
      exists new,
        estimate_facial_expression utf8_to_sjis morph_vec au frame_number
          = morph_vec ++ new
        /\ length new = 13%nat
        /\ forall m, m ∈ new ->
             is_nan (VMD_Morph.weight m) = false ->
             in_unit_interval (VMD_Morph.weight m) = true).
Proof.
  split.
  - intros morph_vec name frame_number weight Hw.
    eexists. split; [apply add_morph_frame_eq|].
    simpl. apply clamp01_in_unit_interval, Hw.
  - intros morph_vec au frame_number.
    exists (morph_of utf8_to_sjis frame_number <$> expression_table au).
    split; [apply estimate_facial_expression_eq|]. split; [reflexivity|].
    intros m Hm Hnan.
    apply list_elem_of_fmap in Hm as ([nm x] & -> & _). simpl in *.
    destruct (is_nan (double_to_float x)) eqn:Hx.
    + rewrite (clamp01_nan _ Hx) in Hnan. congruence.
    + apply clamp01_in_unit_interval, Hx.
Qed.

(** The clamp at work on a weight above 1. *)
Lemma morph_weight_in_unit_interval_witness :
  exists m,
    add_morph_frame same_name [] "あ" 7 1.5%float = [] ++ [m]
    /\ in_unit_interval (VMD_Morph.weight m) = true.
Proof.
  exact (proj1 (morph_weight_in_unit_interval same_name) [] "あ"%string 7 1.5%float
               eq_refl).
Defined.

(** C1 as stated fails on NaN: an intensity that is NaN for a present jaw
    drop (AU26) goes through the division, the doubling, the conversion and
    both tests of [add_morph_frame], and is stored as the weight of "あ". *)
Lemma nan_weight_is_stored :
  exists au,
    get_action_unit [("AU26"%string, nan)] [("AU26"%string, 1%float)] = Ok au
    /\ forall utf8_to_sjis : string -> string,
        exists m,
          estimate_facial_expression utf8_to_sjis [] au 0 !! 0%nat = Some m
          /\ VMD_Morph.name m = utf8_to_sjis "あ"
          /\ is_nan (VMD_Morph.weight m) = true
          /\ in_unit_interval (VMD_Morph.weight m) = false.
Proof.
  eexists. split; [vm_compute; reflexivity|].
  intros utf8_to_sjis. eexists. split; [reflexivity|].
  split; [reflexivity|]. split; vm_compute; reflexivity.
Qed.

(** ** The frame loop *)

Section FrameSamples.

Variable utf8_to_sjis : string -> string.
Variable AngleAxisd : float -> Vector3 -> Quaternion.
Variable quat_mul : Quaternion -> Quaternion -> Quaternion.
Variable quat_rotate : Quaternion -> Vector3 -> Vector3.
Variable FromTwoVectors : Vector3 -> Vector3 -> Quaternion.
Variable slerp : Quaternion -> float -> Quaternion -> Quaternion.
Variable gaze_through_pupil : CLNF -> nat -> bool -> Vector3.

Abbreviation process :=
  (process_frame utf8_to_sjis AngleAxisd quat_mul quat_rotate FromTwoVectors
     slerp gaze_through_pupil).
Abbreviation loop :=
  (frame_loop utf8_to_sjis AngleAxisd quat_mul quat_rotate FromTwoVectors
     slerp gaze_through_pupil).
Abbreviation mapping :=
  (mapping_phase utf8_to_sjis AngleAxisd quat_mul quat_rotate FromTwoVectors
     slerp gaze_through_pupil).
Abbreviation estimate_gaze := (CustomEstimateGaze gaze_through_pupil).
Abbreviation rotation_key := (rotation_key utf8_to_sjis).
Abbreviation position_key := (position_key utf8_to_sjis).
Abbreviation head_rotation := (head_rotation AngleAxisd quat_mul).
Abbreviation gaze_rotation := (gaze_rotation quat_rotate FromTwoVectors slerp).
Abbreviation bone_samples :=
  (bone_samples utf8_to_sjis AngleAxisd quat_mul quat_rotate FromTwoVectors
     slerp gaze_through_pupil).

Lemma add_gaze_pose_eq (frame_vec : list VMD_Frame.t)
    (gazedir_left gazedir_right : Vector3) (head_rot : Quaternion)
    (frame_number : Z) :
  add_gaze_pose utf8_to_sjis quat_rotate FromTwoVectors slerp frame_vec
    gazedir_left gazedir_right head_rot frame_number
  = frame_vec ++
    [rotation_key "左目" frame_number (gaze_rotation head_rot gazedir_right);
     rotation_key "右目" frame_number (gaze_rotation head_rot gazedir_left)].
Proof.
  unfold add_gaze_pose, add_rotation_pose. rewrite <- app_assoc. reflexivity.
Qed.

Lemma process_frame_skipped (vmd : VMD.t) (frame_number : Z) (obs : Observation) :
  detected obs = false -> process vmd frame_number obs = Ok vmd.
Proof. intros H. unfold process_frame. rewrite H. reflexivity. Qed.

Lemma process_frame_detected (vmd : VMD.t) (frame_number : Z) (obs : Observation)
    (au : list float) :
  detected obs = true ->
  get_action_unit (intensity obs) (presence obs) = Ok au ->
  process vmd frame_number obs =
  Ok (VMD.mk (VMD.frame vmd ++ bone_samples obs frame_number)
             (VMD.morph vmd ++
                (morph_of utf8_to_sjis frame_number <$> expression_table au))).
Proof.
  intros Hd Hau. unfold process_frame. rewrite Hd, Hau. simpl.
  rewrite estimate_facial_expression_eq. unfold bone_samples.
  destruct (eye_model (face_model obs)).
  - rewrite add_gaze_pose_eq. unfold add_center_frame, add_position_pose,
      add_head_pose, add_rotation_pose. rewrite <- !app_assoc. reflexivity.
  - unfold add_center_frame, add_position_pose, add_head_pose, add_rotation_pose.
    rewrite <- !app_assoc. reflexivity.
Qed.

Lemma process_frame_fault (vmd : VMD.t) (frame_number : Z) (obs : Observation)
    (e : fault) :
  detected obs = true ->
  get_action_unit (intensity obs) (presence obs) = Fault e ->
  process vmd frame_number obs = Fault e.
Proof. intros Hd Hau. unfold process_frame. rewrite Hd, Hau. reflexivity. Qed.

Lemma process_frame_ok_inv (vmd vmd' : VMD.t) (frame_number : Z)
    (obs : Observation) :
  process vmd frame_number obs = Ok vmd' ->
  (detected obs = false /\ vmd' = vmd) \/
  (detected obs = true /\ exists au,
      get_action_unit (intensity obs) (presence obs) = Ok au /\
      vmd' = VMD.mk (VMD.frame vmd ++ bone_samples obs frame_number)
               (VMD.morph vmd ++
                  (morph_of utf8_to_sjis frame_number <$> expression_table au))).
Proof.
  intros H. destruct (detected obs) eqn:Hd.
  - right. split; [reflexivity|].
    destruct (get_action_unit (intensity obs) (presence obs)) as [au|e] eqn:Hau.
    + exists au. split; [reflexivity|].
      rewrite (process_frame_detected _ _ _ au Hd Hau) in H. congruence.
    + rewrite (process_frame_fault _ _ _ e Hd Hau) in H. discriminate H.
  - left. split; [reflexivity|].
    rewrite (process_frame_skipped _ _ _ Hd) in H. congruence.
Qed.

Lemma process_frame_total (vmd : VMD.t) (frame_number : Z) (obs : Observation) :
  units_readable obs -> exists vmd', process vmd frame_number obs = Ok vmd'.
Proof.
  intros Hr. destruct (detected obs) eqn:Hd.
  - destruct (Hr Hd) as [au Hau]. eexists.
    apply (process_frame_detected _ _ _ au Hd Hau).
  - exists vmd. apply process_frame_skipped, Hd.
Qed.

(** The loop over a concatenation: the counter is a [uint32_t]. *)
Lemma frame_loop_app (l1 l2 : list Observation) (vmd : VMD.t) (n : Z) :
  loop vmd (uint32 n) (l1 ++ l2) =
  vmd1 ← loop vmd (uint32 n) l1;
  loop vmd1 (uint32 (n + Z.of_nat (length l1))) l2.
Proof.
  revert vmd n. induction l1 as [|obs l1 IH]; intros vmd n.
  - simpl. rewrite Z.add_0_r. reflexivity.
  - simpl. destruct (process vmd (uint32 n) obs) as [vmd'|e]; [|reflexivity].
    simpl. replace (uint32 (uint32 n + 1)) with (uint32 (n + 1))
      by (unfold uint32; rewrite Zplus_mod_idemp_l; reflexivity).
    rewrite IH.
    replace (n + 1 + Z.of_nat (length l1)) with (n + Z.of_nat (S (length l1)))
      by lia.
    reflexivity.
Qed.

Lemma frame_loop_total (frames : list Observation) (vmd : VMD.t) (n : Z) :
  Forall units_readable frames -> exists vmd', loop vmd n frames = Ok vmd'.
Proof.
  intros H. revert vmd n. induction H as [|obs frames Hr _ IH]; intros vmd n.
  - exists vmd. reflexivity.
  - simpl. destruct (process_frame_total vmd n obs Hr) as [vmd1 H1].
    rewrite H1. simpl. apply IH.
Qed.

Lemma bone_samples_number (obs : Observation) (n : Z) :
  Forall (fun f => VMD_Frame.number f = n) (bone_samples obs n).
Proof.
  unfold bone_samples. destruct (eye_model (face_model obs));
    repeat constructor.
Qed.

Lemma bone_samples_names (obs : Observation) (n : Z) :
  VMD_Frame.bonename <$> bone_samples obs n = utf8_to_sjis <$> bone_names_of obs.
Proof.
  unfold bone_samples, bone_names_of.
  destruct (eye_model (face_model obs)); reflexivity.
Qed.

Lemma morph_samples_frame (n : Z) (tbl : list (string * float)) :
  Forall (fun m => VMD_Morph.frame m = n) (morph_of utf8_to_sjis n <$> tbl).
Proof. apply Forall_fmap, Forall_forall. intros p _. reflexivity. Qed.

(** What a loop appends is numbered from the counter on, as long as the
    counter does not wrap. *)
Lemma frame_loop_appends (frames : list Observation) (vmd vmd' : VMD.t) (n : Z) :
  0 <= n -> n + Z.of_nat (length frames) <= 2 ^ 32 ->
  loop vmd (uint32 n) frames = Ok vmd' ->
  exists fs ms,
    vmd' = VMD.mk (VMD.frame vmd ++ fs) (VMD.morph vmd ++ ms)
    /\ Forall (fun f => n <= VMD_Frame.number f < n + Z.of_nat (length frames)) fs
    /\ Forall (fun m => n <= VMD_Morph.frame m < n + Z.of_nat (length frames)) ms.
Proof.
  revert vmd n. induction frames as [|obs rest IH]; intros vmd n Hn Hlen Hrun.
  - simpl in Hrun. injection Hrun as <-. exists [], [].
    rewrite !app_nil_r. destruct vmd. repeat split; constructor.
  - simpl length in Hlen. rewrite Nat2Z.inj_succ in Hlen.
    assert (Hu : uint32 n = n) by (unfold uint32; apply Z.mod_small; lia).
    simpl in Hrun. rewrite Hu in Hrun.
    destruct (process vmd n obs) as [vmd1|e] eqn:Hstep; [|discriminate Hrun].
    simpl in Hrun.
    destruct (IH vmd1 (n + 1) ltac:(lia) ltac:(lia) Hrun)
      as (fs & ms & -> & Hfs & Hms).
    simpl length. rewrite Nat2Z.inj_succ.
    apply process_frame_ok_inv in Hstep as [[_ ->]|(_ & au & _ & ->)].
    + exists fs, ms. split; [reflexivity|].
      split; eapply Forall_impl; eauto; simpl; intros; lia.
    + simpl. exists (bone_samples obs n ++ fs),
        ((morph_of utf8_to_sjis n <$> expression_table au) ++ ms).
      rewrite !app_assoc. split; [reflexivity|].
      split; apply Forall_app; split.
      * eapply Forall_impl; [apply bone_samples_number|]. simpl. intros; lia.
      * eapply Forall_impl; eauto; simpl; intros; lia.
      * eapply Forall_impl; [apply morph_samples_frame|]. simpl. intros; lia.
      * eapply Forall_impl; eauto; simpl; intros; lia.
Qed.

Lemma mapping_phase_eq (frames : list Observation) :
  mapping frames = loop VMD.empty (uint32 0) frames.
Proof. reflexivity. Qed.

Lemma uint32_succ (n : Z) : uint32 (uint32 n + 1) = uint32 (n + 1).
Proof. unfold uint32. rewrite Zplus_mod_idemp_l. reflexivity. Qed.

(** C5: a frame on which the landmark detection fails is skipped. The body
    of the loop leaves the document as it is and the loop goes on with the
    next frame under the next counter value; the whole mapping of a stream
    is the mapping of the frames before the failed one followed by the loop
    over the frames after it, started one index further; and, in a stream of
    at most [2^32] frames, no bone or morph record carries the index of the
    failed frame. *)
Theorem undetected_frame_is_skipped (pre post : list Observation)
    (obs : Observation) :
  detected obs = false ->
  (forall (vmd : VMD.t) (n : Z),
      process vmd n obs = Ok vmd /\
      loop vmd n (obs :: post) = loop vmd (uint32 (n + 1)) post) /\
  mapping (pre ++ obs :: post)
    = (vmd1 ← mapping pre;
       loop vmd1 (uint32 (Z.of_nat (length pre) + 1)) post) /\
  (forall vmd : VMD.t,
      Z.of_nat (length (pre ++ obs :: post)) <= 2 ^ 32 ->
      mapping (pre ++ obs :: post) = Ok vmd ->
      Forall (fun f => VMD_Frame.number f <> Z.of_nat (length pre)) (VMD.frame vmd)
      /\ Forall (fun m => VMD_Morph.frame m <> Z.of_nat (length pre)) (VMD.morph vmd)).
Proof.
  intros Hd.
  assert (Hskip : forall vmd n,
             loop vmd n (obs :: post) = loop vmd (uint32 (n + 1)) post).
  { intros vmd n. simpl. rewrite (process_frame_skipped _ _ _ Hd). reflexivity. }
  assert (Hsplit : mapping (pre ++ obs :: post)
                   = (vmd1 ← mapping pre;
                      loop vmd1 (uint32 (Z.of_nat (length pre) + 1)) post)).
  { rewrite !mapping_phase_eq, frame_loop_app.
    destruct (loop VMD.empty (uint32 0) pre) as [vmd1|e]; [|reflexivity].
    rewrite !bind_Ok, Hskip, uint32_succ, Z.add_0_l. reflexivity. }
  split; [|split; [exact Hsplit|]].
  - intros vmd n. split; [apply process_frame_skipped, Hd|apply Hskip].
  - intros vmd Hlen Hrun. rewrite Hsplit in Hrun.
    rewrite length_app in Hlen. simpl length in Hlen.
    rewrite mapping_phase_eq in Hrun.
    destruct (loop VMD.empty (uint32 0) pre) as [vmd1|e] eqn:Hpre;
      [|discriminate Hrun].
    simpl in Hrun.
    apply frame_loop_appends in Hpre as (fs1 & ms1 & -> & Hfs1 & Hms1); [|lia..].
    apply frame_loop_appends in Hrun as (fs2 & ms2 & -> & Hfs2 & Hms2); [|lia..].
    simpl. split; rewrite Forall_app; split;
      (eapply Forall_impl; [eassumption|]); simpl; intros; lia.
Qed.

(** The encoding keeps the bone names of the mapper apart, and the morph
    names of the mapper apart: a name is unique within its kind. *)
Hypothesis utf8_to_sjis_bone_inj :
  forall a b : string, a ∈ bone_names -> b ∈ bone_names ->
    utf8_to_sjis a = utf8_to_sjis b -> a = b.

Hypothesis utf8_to_sjis_morph_inj :
  forall a b : string, a ∈ morph_names -> b ∈ morph_names ->
    utf8_to_sjis a = utf8_to_sjis b -> a = b.

Lemma bone_names_of_sub (obs : Observation) : bone_names_of obs ⊆ bone_names.
Proof.
  unfold bone_names_of, bone_names. destruct (eye_model (face_model obs));
    intros x Hx; apply list_elem_of_In in Hx; apply list_elem_of_In;
    simpl in *; tauto.
Qed.

Lemma NoDup_bone_names_of (obs : Observation) : NoDup (bone_names_of obs).
Proof.
  unfold bone_names_of. destruct (eye_model (face_model obs));
    apply (bool_decide_unpack _); vm_compute; reflexivity.
Qed.

Lemma NoDup_bone_samples (obs : Observation) (n : Z) :
  NoDup (VMD_Frame.bonename <$> bone_samples obs n).
Proof using utf8_to_sjis_bone_inj.
  rewrite bone_samples_names.
  apply NoDup_fmap_2_strong; [|apply NoDup_bone_names_of].
  intros a b Ha Hb.
  apply utf8_to_sjis_bone_inj; apply (bone_names_of_sub obs); assumption.
Qed.

(** A bone sample of a frame is the whole channel of its name among the
    samples of that frame. *)
Lemma bone_channel_of_samples (obs : Observation) (n : Z) (f : VMD_Frame.t) :
  f ∈ bone_samples obs n ->
  bone_channel (VMD_Frame.bonename f) (bone_samples obs n) = [f].
Proof using utf8_to_sjis_bone_inj.
  intros Hf. unfold bone_channel.
  apply (filter_key_unique VMD_Frame.bonename);
    [apply NoDup_bone_samples|exact Hf|reflexivity].
Qed.

Lemma process_frame_increasing (vmd vmd' : VMD.t) (n : Z) (obs : Observation) :
  process vmd n obs = Ok vmd' ->
  numbers_below n vmd -> channels_increasing vmd ->
  numbers_below (n + 1) vmd' /\ channels_increasing vmd'.
Proof using utf8_to_sjis_bone_inj utf8_to_sjis_morph_inj.
  intros Hstep [Hbf Hbm] Hinc.
  apply process_frame_ok_inv in Hstep as [[_ ->]|(_ & au & _ & ->)].
  - split; [|exact Hinc]. split; eapply Forall_impl; eauto; simpl; intros; lia.
  - split.
    + split; cbn [VMD.frame VMD.morph]; apply Forall_app; split.
      * eapply Forall_impl; eauto; simpl; intros; lia.
      * eapply Forall_impl; [apply bone_samples_number|]. simpl. intros; lia.
      * eapply Forall_impl; eauto; simpl; intros; lia.
      * eapply Forall_impl; [apply morph_samples_frame|]. simpl. intros; lia.
    + intros nm. cbn [VMD.frame VMD.morph]. split.
      * apply (keyed_channel_step VMD_Frame.bonename VMD_Frame.number _ _ n);
          [intros nm'; apply (Hinc nm')|exact Hbf|apply bone_samples_number|
           apply NoDup_bone_samples].
      * apply (keyed_channel_step VMD_Morph.name VMD_Morph.frame _ _ n);
          [intros nm'; apply (Hinc nm')|exact Hbm|apply morph_samples_frame|].
        apply (NoDup_morph_of utf8_to_sjis utf8_to_sjis_morph_inj);
          rewrite expression_table_names; [apply NoDup_morph_names|reflexivity].
Qed.

Lemma frame_loop_increasing (frames : list Observation) (vmd vmd' : VMD.t) (n : Z) :
  0 <= n -> n + Z.of_nat (length frames) <= 2 ^ 32 ->
  numbers_below n vmd -> channels_increasing vmd ->
  loop vmd (uint32 n) frames = Ok vmd' ->
  channels_increasing vmd'.
Proof using utf8_to_sjis_bone_inj utf8_to_sjis_morph_inj.
  revert vmd n. induction frames as [|obs rest IH];
    intros vmd n Hn Hlen Hbelow Hinc Hrun.
  - simpl in Hrun. injection Hrun as <-. exact Hinc.
  - simpl length in Hlen. rewrite Nat2Z.inj_succ in Hlen.
    assert (Hu : uint32 n = n) by (unfold uint32; apply Z.mod_small; lia).
    simpl in Hrun. rewrite Hu in Hrun.
    destruct (process vmd n obs) as [vmd1|e] eqn:Hstep; [|discriminate Hrun].
    rewrite bind_Ok in Hrun.
    destruct (process_frame_increasing _ _ _ _ Hstep Hbelow Hinc) as [Hb1 Hi1].
    apply (IH vmd1 (n + 1)); [lia|lia|exact Hb1|exact Hi1|exact Hrun].
Qed.

(** C8, as amended: for every stream of at most [2^32] frames whose action
    units can be read, the mapping phase ends, and within every channel of
    the document (bone records of one name, morph records of one name) the
    frame indices increase strictly. The encoding is assumed to keep the
    names of one kind apart. *)
Theorem channels_strictly_increasing (frames : list Observation) :
  Z.of_nat (length frames) <= 2 ^ 32 ->
  Forall units_readable frames ->
  exists vmd,
    mapping frames = Ok vmd /\
    forall nm : string,
      strictly_increasing (VMD_Frame.number <$> bone_channel nm (VMD.frame vmd)) /\
      strictly_increasing (VMD_Morph.frame <$> morph_channel nm (VMD.morph vmd)).
Proof using utf8_to_sjis_bone_inj utf8_to_sjis_morph_inj.
  intros Hlen Hread.
  destruct (frame_loop_total frames VMD.empty (uint32 0) Hread) as [vmd Hrun].
  exists vmd. split; [exact Hrun|].
  apply (frame_loop_increasing frames VMD.empty vmd 0); [lia|lia| | |exact Hrun].
  - split; constructor.
  - intros nm. split; constructor.
Qed.

Lemma morph_series_of_expression (au : list float) (n : Z) (nm : string)
    (x : float) :
  (nm, x) ∈ expression_table au ->
  morph_series (utf8_to_sjis nm)
    (morph_of utf8_to_sjis n <$> expression_table au)
  = [(n, clamp01 (double_to_float x))].
Proof using utf8_to_sjis_morph_inj.
  intros Hin. unfold morph_series.
  rewrite (morph_channel_of_expression utf8_to_sjis utf8_to_sjis_morph_inj
             au n nm x Hin).
  reflexivity.
Qed.

Lemma frame_loop_surprise_up (frames : list Observation) (vmd vmd' : VMD.t) (n : Z) :
  morph_series (utf8_to_sjis "びっくり") (VMD.morph vmd)
    = morph_series (utf8_to_sjis "上") (VMD.morph vmd) ->
  loop vmd n frames = Ok vmd' ->
  morph_series (utf8_to_sjis "びっくり") (VMD.morph vmd')
    = morph_series (utf8_to_sjis "上") (VMD.morph vmd').
Proof using utf8_to_sjis_morph_inj.
  revert vmd n. induction frames as [|obs rest IH]; intros vmd n Heq Hrun.
  - simpl in Hrun. injection Hrun as <-. exact Heq.
  - simpl in Hrun. apply bind_Ok_inv in Hrun as (vmd1 & Hstep & Hrun).
    apply (IH vmd1 (uint32 (n + 1))); [|exact Hrun].
    apply process_frame_ok_inv in Hstep as [[_ ->]|(_ & au & _ & ->)];
      [exact Heq|].
    cbn [VMD.morph]. rewrite !morph_series_app, Heq. f_equal.
    rewrite (morph_series_of_expression au n "びっくり" (au_at au UpperLidRaiser))
      by (apply list_elem_of_In; simpl; tauto).
    rewrite (morph_series_of_expression au n "上" (au_at au UpperLidRaiser))
      by (apply list_elem_of_In; simpl; tauto).
    reflexivity.
Qed.

(** C10: for every action-unit vector the sample of "びっくり" and the sample
    of "上" carry the same weight, the clamped upper-lid-raiser (AU05)
    intensity in single precision; so after the mapping phase of any stream
    whose action units can be read the two channels are the same time
    series. *)
Theorem surprise_and_up_agree :
  (forall (morph_vec : list VMD_Morph.t) (au : list float) (frame_number : Z),
      exists new,
        estimate_facial_expression utf8_to_sjis morph_vec au frame_number
          = morph_vec ++ new
        /\ morph_series (utf8_to_sjis "びっくり") new
           = [(frame_number, clamp01 (double_to_float (au_at au UpperLidRaiser)))]
        /\ morph_series (utf8_to_sjis "上") new
           = [(frame_number, clamp01 (double_to_float (au_at au UpperLidRaiser)))]) /\
  (forall frames : list Observation,
      Forall units_readable frames ->
      exists vmd,
        mapping frames = Ok vmd
        /\ morph_series (utf8_to_sjis "びっくり") (VMD.morph vmd)
           = morph_series (utf8_to_sjis "上") (VMD.morph vmd)).
Proof using utf8_to_sjis_morph_inj.
  split.
  - intros morph_vec au frame_number.
    exists (morph_of utf8_to_sjis frame_number <$> expression_table au).
    split; [apply estimate_facial_expression_eq|].
    split; apply morph_series_of_expression; apply list_elem_of_In; simpl; tauto.
  - intros frames Hread.
    destruct (frame_loop_total frames VMD.empty 0 Hread) as [vmd Hrun].
    exists vmd. split; [exact Hrun|].
    apply (frame_loop_surprise_up frames VMD.empty vmd 0); [reflexivity|exact Hrun].
Qed.

(** C4: the eye rotations are swapped on assignment. [add_gaze_pose] appends
    the rotation computed from the right gaze direction under the name
    "左目" (left eye) and then the rotation computed from the left gaze
    direction under "右目" (right eye); in a processed frame with an eye model
    the channel "左目" receives the rotation of the gaze estimated for the
    right eye and the channel "右目" the rotation of the gaze estimated for
    the left eye. *)
Theorem gaze_samples_are_mirrored :
  (forall (frame_vec : list VMD_Frame.t) (gazedir_left gazedir_right : Vector3)
          (head_rot : Quaternion) (frame_number : Z),
      add_gaze_pose utf8_to_sjis quat_rotate FromTwoVectors slerp frame_vec
        gazedir_left gazedir_right head_rot frame_number
      = frame_vec ++
        [rotation_key "左目" frame_number (gaze_rotation head_rot gazedir_right);
         rotation_key "右目" frame_number (gaze_rotation head_rot gazedir_left)]) /\
  (forall (vmd : VMD.t) (frame_number : Z) (obs : Observation) (au : list float),
      detected obs = true ->
      eye_model (face_model obs) = true ->
      get_action_unit (intensity obs) (presence obs) = Ok au ->
      exists vmd' new,
        process vmd frame_number obs = Ok vmd'
        /\ VMD.frame vmd' = VMD.frame vmd ++ new
        /\ bone_channel (utf8_to_sjis "左目") new
           = [rotation_key "左目" frame_number
                (gaze_rotation (head_rotation (head_pose obs))
                   (estimate_gaze (face_model obs) false))]
        /\ bone_channel (utf8_to_sjis "右目") new
           = [rotation_key "右目" frame_number
                (gaze_rotation (head_rotation (head_pose obs))
                   (estimate_gaze (face_model obs) true))]).
Proof using utf8_to_sjis_bone_inj.
  split; [apply add_gaze_pose_eq|].
  intros vmd frame_number obs au Hd He Hau.
  eexists. exists (bone_samples obs frame_number).
  split; [apply (process_frame_detected _ _ _ au Hd Hau)|].
  split; [reflexivity|].
  split.
  - apply (bone_channel_of_samples obs frame_number
             (rotation_key "左目" frame_number
                (gaze_rotation (head_rotation (head_pose obs))
                   (estimate_gaze (face_model obs) false)))).
    unfold bone_samples. rewrite He. apply list_elem_of_In. simpl. tauto.
  - apply (bone_channel_of_samples obs frame_number
             (rotation_key "右目" frame_number
                (gaze_rotation (head_rotation (head_pose obs))
                   (estimate_gaze (face_model obs) true)))).
    unfold bone_samples. rewrite He. apply list_elem_of_In. simpl. tauto.
Qed.

(** C7: in every processed frame the one record appended to the channel
    "頭" (head) carries, in single precision, the product of the rotation
    about X by the negated first pose angle, the rotation about Y by the
    second pose angle and the rotation about Z by the negated third pose
    angle, composed in this order. *)
Theorem head_rotation_is_composed (vmd : VMD.t) (frame_number : Z)
    (obs : Observation) (au : list float) :
  detected obs = true ->
  get_action_unit (intensity obs) (presence obs) = Ok au ->
  exists vmd' new,
    process vmd frame_number obs = Ok vmd'
    /\ VMD.frame vmd' = VMD.frame vmd ++ new
    /\ bone_channel (utf8_to_sjis "頭") new
       = [VMD_Frame.mk (utf8_to_sjis "頭") frame_number Vector3_Zero
            (Quaternionf_of
               (quat_mul
                  (quat_mul (AngleAxisd (- p3 (head_pose obs))%float UnitX)
                            (AngleAxisd (p4 (head_pose obs)) UnitY))
                  (AngleAxisd (- p5 (head_pose obs))%float UnitZ)))].
Proof using utf8_to_sjis_bone_inj.
  intros Hd Hau. eexists. exists (bone_samples obs frame_number).
  split; [apply (process_frame_detected _ _ _ au Hd Hau)|].
  split; [reflexivity|].
  apply (bone_channel_of_samples obs frame_number
           (rotation_key "頭" frame_number (head_rotation (head_pose obs)))).
  unfold bone_samples. apply elem_of_app. left. left.
Qed.

(** C6, as amended: in a processed frame whose face model has no eye model
    (its flag [eye_model] is unset) the head and the centre record and the
    thirteen morph records are appended and neither eye channel receives a
    record. When [CustomEstimateGaze] finds no part named for the eye it
    answers the zero vector, and whenever the flag is set each eye channel
    receives one record, whatever parts the face model has. *)
Theorem no_gaze_without_eye_model :
  (forall (vmd : VMD.t) (frame_number : Z) (obs : Observation) (au : list float),
      detected obs = true ->
      eye_model (face_model obs) = false ->
      get_action_unit (intensity obs) (presence obs) = Ok au ->
      exists new ms,
        process vmd frame_number obs
          = Ok (VMD.mk (VMD.frame vmd ++ new) (VMD.morph vmd ++ ms))
        /\ new = [rotation_key "頭" frame_number (head_rotation (head_pose obs));
                  position_key "センター" frame_number
                    (center_position (head_pose obs))]
        /\ bone_channel (utf8_to_sjis "左目") new = []
        /\ bone_channel (utf8_to_sjis "右目") new = []
        /\ length ms = 13%nat
        /\ Forall (fun m => VMD_Morph.frame m = frame_number) ms) /\
  (forall (clnf_model : CLNF) (left_eye : bool),
      find_eye_part (hierarchical_model_names clnf_model) left_eye 0 None = None ->
      estimate_gaze clnf_model left_eye = mkVector3 0 0 0) /\
  (forall (vmd : VMD.t) (frame_number : Z) (obs : Observation) (au : list float),
      detected obs = true ->
      eye_model (face_model obs) = true ->
      get_action_unit (intensity obs) (presence obs) = Ok au ->
      exists vmd' new,
        process vmd frame_number obs = Ok vmd'
        /\ VMD.frame vmd' = VMD.frame vmd ++ new
        /\ length (bone_channel (utf8_to_sjis "左目") new) = 1%nat
        /\ length (bone_channel (utf8_to_sjis "右目") new) = 1%nat).
Proof using utf8_to_sjis_bone_inj.
  split; [|split].
  - intros vmd frame_number obs au Hd He Hau.
    exists (bone_samples obs frame_number),
      (morph_of utf8_to_sjis frame_number <$> expression_table au).
    split; [apply (process_frame_detected _ _ _ au Hd Hau)|].
    assert (Hnames : VMD_Frame.bonename <$> bone_samples obs frame_number
                     = utf8_to_sjis <$> ["頭"; "センター"]%string).
    { rewrite bone_samples_names. unfold bone_names_of. rewrite He. reflexivity. }
    split; [unfold bone_samples; rewrite He; reflexivity|].
    split; [|split; [|split; [reflexivity|apply morph_samples_frame]]].
    + apply filter_key_none. rewrite Hnames. intros Hin.
      apply list_elem_of_fmap in Hin as (b & Heq & Hb).
      apply utf8_to_sjis_bone_inj in Heq;
        [subst b|apply list_elem_of_In; simpl; tauto|
         apply list_elem_of_In in Hb; apply list_elem_of_In; simpl in *; tauto].
      apply list_elem_of_In in Hb. simpl in Hb.
      destruct Hb as [Hb|[Hb|[]]]; discriminate Hb.
    + apply filter_key_none. rewrite Hnames. intros Hin.
      apply list_elem_of_fmap in Hin as (b & Heq & Hb).
      apply utf8_to_sjis_bone_inj in Heq;
        [subst b|apply list_elem_of_In; simpl; tauto|
         apply list_elem_of_In in Hb; apply list_elem_of_In; simpl in *; tauto].
      apply list_elem_of_In in Hb. simpl in Hb.
      destruct Hb as [Hb|[Hb|[]]]; discriminate Hb.
  - intros clnf_model left_eye Hnone. unfold CustomEstimateGaze.
    rewrite Hnone. reflexivity.
  - intros vmd frame_number obs au Hd He Hau.
    eexists. exists (bone_samples obs frame_number).
    split; [apply (process_frame_detected _ _ _ au Hd Hau)|].
    split; [reflexivity|].
    split.
    + assert (Hc : bone_channel (utf8_to_sjis "左目") (bone_samples obs frame_number)
                   = [rotation_key "左目" frame_number
                        (gaze_rotation (head_rotation (head_pose obs))
                           (estimate_gaze (face_model obs) false))]).
      { apply (bone_channel_of_samples obs frame_number
                 (rotation_key "左目" frame_number
                    (gaze_rotation (head_rotation (head_pose obs))
                       (estimate_gaze (face_model obs) false)))).
        unfold bone_samples. rewrite He. apply list_elem_of_In. simpl. tauto. }
      rewrite Hc. reflexivity.
    + assert (Hc : bone_channel (utf8_to_sjis "右目") (bone_samples obs frame_number)
                   = [rotation_key "右目" frame_number
                        (gaze_rotation (head_rotation (head_pose obs))
                           (estimate_gaze (face_model obs) true))]).
      { apply (bone_channel_of_samples obs frame_number
                 (rotation_key "右目" frame_number
                    (gaze_rotation (head_rotation (head_pose obs))
                       (estimate_gaze (face_model obs) true)))).
        unfold bone_samples. rewrite He. apply list_elem_of_In. simpl. tauto. }
      rewrite Hc. reflexivity.
Qed.

End FrameSamples.

(** ** Worked examples *)

Lemma same_name_bone_inj (a b : string) :
  a ∈ bone_names -> b ∈ bone_names -> same_name a = same_name b -> a = b.
Proof. intros _ _ H. exact H. Qed.

Lemma still_frame_units : get_action_unit [] [] = Ok (replicate AU_SIZE 0%float).
Proof. reflexivity. Qed.

Lemma still_frame_readable : units_readable still_frame.
Proof. intros _. eexists. apply still_frame_units. Qed.

Lemma lost_frame_readable : units_readable lost_frame.
Proof. intros H. discriminate H. Qed.

Lemma gazing_frame_readable : units_readable gazing_frame.
Proof. intros _. eexists. vm_compute. reflexivity. Qed.

(** A stream with a gap: the frame of index 1 is lost. *)
Lemma undetected_frame_is_skipped_witness :
  exists vmd,
    example_mapping ([still_frame] ++ lost_frame :: [gazing_frame]) = Ok vmd
    /\ Forall (fun f => VMD_Frame.number f <> 1) (VMD.frame vmd)
    /\ Forall (fun m => VMD_Morph.frame m <> 1) (VMD.morph vmd).
Proof.
  eexists. split; [vm_compute; reflexivity|].
  apply (proj2 (proj2 (undetected_frame_is_skipped same_name standin_AngleAxisd
           standin_quat_mul standin_quat_rotate standin_FromTwoVectors
           standin_slerp standin_gaze [still_frame] [gazing_frame] lost_frame
           eq_refl))).
  - simpl. lia.
  - vm_compute. reflexivity.
Defined.

(** The channels of the same stream. *)
Lemma channels_strictly_increasing_witness :
  exists vmd,
    example_mapping [still_frame; lost_frame; gazing_frame] = Ok vmd
    /\ forall nm : string,
        strictly_increasing (VMD_Frame.number <$> bone_channel nm (VMD.frame vmd))
        /\ strictly_increasing (VMD_Morph.frame <$> morph_channel nm (VMD.morph vmd)).
Proof.
  apply (channels_strictly_increasing same_name standin_AngleAxisd
           standin_quat_mul standin_quat_rotate standin_FromTwoVectors
           standin_slerp standin_gaze same_name_bone_inj same_name_morph_inj
           [still_frame; lost_frame; gazing_frame]).
  - simpl. lia.
  - repeat constructor;
      [apply still_frame_readable|apply lost_frame_readable|
       apply gazing_frame_readable].
Defined.

(** C8 as stated fails on long streams: the counter is a [uint32_t], so the
    frame after index [2^32 - 1] is numbered 0 again, and the head channel
    of a stream of [2^32 + 1] frames ends with the indices [2^32 - 1], 0. *)
Lemma long_stream_wraps :
  Z.of_nat (length long_stream) = 2 ^ 32 + 1 /\
  Forall units_readable long_stream /\
  forall (utf8_to_sjis : string -> string)
         (AngleAxisd : float -> Vector3 -> Quaternion)
         (quat_mul : Quaternion -> Quaternion -> Quaternion)
         (quat_rotate : Quaternion -> Vector3 -> Vector3)
         (FromTwoVectors : Vector3 -> Vector3 -> Quaternion)
         (slerp : Quaternion -> float -> Quaternion -> Quaternion)
         (gaze_through_pupil : CLNF -> nat -> bool -> Vector3),
    exists vmd,
      mapping_phase utf8_to_sjis AngleAxisd quat_mul quat_rotate FromTwoVectors
        slerp gaze_through_pupil long_stream = Ok vmd
      /\ ~ strictly_increasing
             (VMD_Frame.number <$> bone_channel (utf8_to_sjis "頭") (VMD.frame vmd)).
Proof.
  unfold long_stream.
  remember (Z.to_nat (2 ^ 32 - 1)) as k eqn:Hk.
  assert (Hkz : Z.of_nat k = 4294967295) by (subst k; apply Z2Nat.id; lia).
  clear Hk.
  split; [|split].
  - rewrite length_app, length_replicate. simpl length. lia.
  - apply Forall_app. split.
    + apply Forall_replicate, still_frame_readable.
    + repeat constructor; apply still_frame_readable.
  - intros utf8_to_sjis AngleAxisd quat_mul quat_rotate FromTwoVectors slerp
      gaze_through_pupil.
    rewrite mapping_phase_eq, frame_loop_app.
    destruct (frame_loop_total utf8_to_sjis AngleAxisd quat_mul quat_rotate
                FromTwoVectors slerp gaze_through_pupil
                (replicate k still_frame) VMD.empty (uint32 0)
                (Forall_replicate _ _ _ still_frame_readable)) as [vmd1 Hpre].
    rewrite Hpre, bind_Ok, length_replicate, Hkz.
    change (uint32 (0 + 4294967295)) with 4294967295.
    cbn [frame_loop].
    rewrite (process_frame_detected _ _ _ _ _ _ _ _ _ still_frame _ eq_refl
               still_frame_units), bind_Ok.
    change (uint32 (4294967295 + 1)) with 0.
    rewrite (process_frame_detected _ _ _ _ _ _ _ _ _ still_frame _ eq_refl
               still_frame_units), bind_Ok.
    eexists. split; [reflexivity|].
    cbn [VMD.frame]. rewrite <- app_assoc, !bone_channel_app, !fmap_app.
    intros Hsorted. apply StronglySorted_app_1_r in Hsorted.
    assert (Hlt : 4294967295 < 0); [|lia].
    apply (StronglySorted_app_1_elem_of _ _ _ _ _ Hsorted);
      apply list_elem_of_fmap; eexists; (split; [|apply list_elem_of_filter;
        split; [|left]]); reflexivity.
Qed.

(** The two channels of the same stream. *)
Lemma surprise_and_up_agree_witness :
  exists vmd,
    example_mapping [still_frame; lost_frame; gazing_frame] = Ok vmd
    /\ morph_series (same_name "びっくり") (VMD.morph vmd)
       = morph_series (same_name "上") (VMD.morph vmd).
Proof.
  apply (proj2 (surprise_and_up_agree same_name standin_AngleAxisd
           standin_quat_mul standin_quat_rotate standin_FromTwoVectors
           standin_slerp standin_gaze same_name_morph_inj)
           [still_frame; lost_frame; gazing_frame]).
  repeat constructor;
    [apply still_frame_readable|apply lost_frame_readable|
     apply gazing_frame_readable].
Defined.

(** With the stand-ins, the gaze of the right eye (0.25 to the right)
    shows in "左目" and the gaze of the left eye in "右目". *)
Lemma gaze_samples_are_mirrored_witness :
  exists vmd' new,
    example_process VMD.empty 7 gazing_frame = Ok vmd'
    /\ VMD.frame vmd' = VMD.frame VMD.empty ++ new
    /\ bone_channel (same_name "左目") new
       = [VMD_Frame.mk "左目" 7 Vector3_Zero (mkQuaternion 1 0.0625 (-0) (-0.25))]
    /\ bone_channel (same_name "右目") new
       = [VMD_Frame.mk "右目" 7 Vector3_Zero (mkQuaternion 1 (-0.0625) (-0) (-0.25))].
Proof.
  eapply (proj2 (gaze_samples_are_mirrored same_name standin_AngleAxisd
            standin_quat_mul standin_quat_rotate standin_FromTwoVectors
            standin_slerp standin_gaze same_name_bone_inj)
            VMD.empty 7 gazing_frame);
    [reflexivity|reflexivity|vm_compute; reflexivity].
Defined.

(** The head record of a frame with the pose angles 0.5, 0.25, -0.125. *)
Lemma head_rotation_is_composed_witness :
  exists vmd' new,
    example_process VMD.empty 7 gazing_frame = Ok vmd'
    /\ VMD.frame vmd' = VMD.frame VMD.empty ++ new
    /\ bone_channel (same_name "頭") new
       = [VMD_Frame.mk (same_name "頭") 7 Vector3_Zero
            (Quaternionf_of
               (standin_quat_mul
                  (standin_quat_mul (standin_AngleAxisd (- 0.5) UnitX)
                                    (standin_AngleAxisd 0.25 UnitY))
                  (standin_AngleAxisd (- (-0.125)) UnitZ)))].
Proof.
  eapply (head_rotation_is_composed same_name standin_AngleAxisd
            standin_quat_mul standin_quat_rotate standin_FromTwoVectors
            standin_slerp standin_gaze same_name_bone_inj
            VMD.empty 7 gazing_frame);
    [reflexivity|vm_compute; reflexivity].
Defined.

(** A still frame without eye model. *)
Lemma no_gaze_without_eye_model_witness :
  exists new ms,
    example_process VMD.empty 7 still_frame
      = Ok (VMD.mk (VMD.frame VMD.empty ++ new) (VMD.morph VMD.empty ++ ms))
    /\ new = [rotation_key same_name "頭" 7
                (head_rotation standin_AngleAxisd standin_quat_mul
                   (head_pose still_frame));
              position_key same_name "センター" 7
                (center_position (head_pose still_frame))]
    /\ bone_channel (same_name "左目") new = []
    /\ bone_channel (same_name "右目") new = []
    /\ length ms = 13%nat
    /\ Forall (fun m => VMD_Morph.frame m = 7) ms.
Proof.
  eapply (proj1 (no_gaze_without_eye_model same_name standin_AngleAxisd
            standin_quat_mul standin_quat_rotate standin_FromTwoVectors
            standin_slerp standin_gaze same_name_bone_inj)
            VMD.empty 7 still_frame);
    [reflexivity|reflexivity|apply still_frame_units].
Defined.

(** C6 as stated fails when an eye part is missing under a set flag: the
    face model of [one_eyed_frame] has no part for the right eye, so
    [CustomEstimateGaze] reports the zero vector for it, and the frame still
    appends a record to "左目" and a record to "右目". *)
Lemma gaze_with_missing_eye_part :
  find_eye_part (hierarchical_model_names (face_model one_eyed_frame)) false 0 None
    = None /\
  forall (utf8_to_sjis : string -> string)
         (AngleAxisd : float -> Vector3 -> Quaternion)
         (quat_mul : Quaternion -> Quaternion -> Quaternion)
         (quat_rotate : Quaternion -> Vector3 -> Vector3)
         (FromTwoVectors : Vector3 -> Vector3 -> Quaternion)
         (slerp : Quaternion -> float -> Quaternion -> Quaternion)
         (gaze_through_pupil : CLNF -> nat -> bool -> Vector3),
    CustomEstimateGaze gaze_through_pupil (face_model one_eyed_frame) false
      = mkVector3 0 0 0
    /\ exists vmd' left right,
         process_frame utf8_to_sjis AngleAxisd quat_mul quat_rotate FromTwoVectors
           slerp gaze_through_pupil VMD.empty 0 one_eyed_frame = Ok vmd'
         /\ VMD.frame vmd' !! 2%nat = Some left
         /\ VMD_Frame.bonename left = utf8_to_sjis "左目"
         /\ VMD.frame vmd' !! 3%nat = Some right
         /\ VMD_Frame.bonename right = utf8_to_sjis "右目".
Proof.
  split; [reflexivity|].
  intros utf8_to_sjis AngleAxisd quat_mul quat_rotate FromTwoVectors slerp
    gaze_through_pupil.
  split; [reflexivity|].
  do 3 eexists. split; [reflexivity|]. repeat split; reflexivity.
Qed.

(** The jaw-drop scenario through the whole mapping phase: the reported
    intensities 0, 3 and 0 are the normalised intensities 0.0, 0.6 and 0.0,
    and the channel "あ" holds the weights 0.0, 1.0 and 0.0 at the frames 0,
    1 and 2. *)
Example jaw_drop_scenario :
  exists vmd,
    example_mapping [jaw_frame 0; jaw_frame 3; jaw_frame 0] = Ok vmd
    /\ morph_series "あ" (VMD.morph vmd)
       = [(0, 0.0%float); (1, 1.0%float); (2, 0.0%float)].
Proof. eexists. split; vm_compute; reflexivity. Qed.

(** ** Labels of the action units *)

Lemma atoi_two_digits (n : nat) : (n < 100)%nat -> atoi (two_digits n) = Z.of_nat n.
Proof.
  intros Hn.
  assert (Hall : forallb (fun k => (atoi (two_digits k) =? Z.of_nat k)%Z) (seq 0 100) = true)
    by (vm_compute; reflexivity).
  rewrite forallb_forall in Hall.
  apply Z.eqb_eq, Hall, in_seq. lia.
Qed.

Lemma au_id_four_chars (c1 c2 d1 d2 : ascii) (rest : string) :
  au_id (String c1 (String c2 (String d1 (String d2 rest))))
  = Ok (atoi (String d1 (String d2 EmptyString))).
Proof. unfold au_id, substr. destruct rest; reflexivity. Qed.

(** X1: the id of a label is read from its third and fourth characters
    alone. Whatever the two leading characters and whatever follows, a label
    that carries the two decimal digits of [n] there has the id [n]: the
    labels "AU01" ... "AU45" of OpenFace, with or without the suffixes "_r"
    and "_c", index the slot of their number. *)
Theorem au_id_reads_two_digits (c1 c2 : ascii) (n : nat) (rest : string) :
  (n < 100)%nat ->
  au_id (String c1 (String c2 (two_digits n ++ rest))) = Ok (Z.of_nat n).
Proof.
  intros Hn.
  change (two_digits n ++ rest)%string
    with (String (digit_char (n / 10)) (String (digit_char (n mod 10)) rest)).
  rewrite au_id_four_chars. f_equal. apply (atoi_two_digits n Hn).
Qed.

(** The label of the blink unit with a suffix. *)
Lemma au_id_reads_two_digits_witness :
  au_id (String "A" (String "U" (two_digits 45 ++ "_c"))) = Ok 45.
Proof. exact (au_id_reads_two_digits "A" "U" 45 "_c" ltac:(lia)). Defined.

(** ** The domain of [get_action_unit] *)

Lemma au_id_ok_inv (label : string) (id : Z) :
  au_id label = Ok id -> (2 <= String.length label)%nat /\ id = label_id label.
Proof.
  unfold au_id, substr.
  destruct (String.length label <? 2)%nat eqn:E; [discriminate|].
  intros [= <-]. apply Nat.ltb_ge in E. split; [exact E|reflexivity].
Qed.

Lemma last_report_Some_member (m : list (string * float)) (i : Z) (v : float) :
  last_report m i = Some v -> exists q, q ∈ m /\ label_id (fst q) = i.
Proof.
  revert v. induction m as [|p rest IH]; intros v; [discriminate|]. simpl.
  destruct (last_report rest i) as [v'|].
  - intros _. destruct (IH v' eq_refl) as (q & Hq & E).
    exists q. split; [right; exact Hq|exact E].
  - destruct (decide (label_id (fst p) = i)) as [E|]; [|discriminate].
    intros _. exists p. split; [left|exact E].
Qed.

Lemma presence_loop_labels (presence : list (string * float)) :
  forall valid valid',
  presence_loop presence valid = Ok valid' ->
  Forall (fun p => (2 <= String.length (fst p))%nat) presence.
Proof.
  induction presence as [|p rest IH]; intros valid valid' Hrun; [constructor|].
  simpl in Hrun. apply bind_Ok_inv in Hrun as (id & Hid & Hrun).
  apply bind_Ok_inv in Hrun as (valid1 & _ & Hrun).
  constructor; [exact (proj1 (au_id_ok_inv _ _ Hid))|exact (IH _ _ Hrun)].
Qed.

Lemma intensity_loop_reads (intensity : list (string * float))
    (valid : list (option bool)) :
  forall au au',
  intensity_loop intensity valid au = Ok au' ->
  Forall (fun p => (2 <= String.length (fst p))%nat /\
                   0 <= label_id (fst p) < Z.of_nat (length valid) /\
                   exists b, valid !! Z.to_nat (label_id (fst p)) = Some (Some b))
         intensity.
Proof.
  induction intensity as [|p rest IH]; intros au au' Hrun; [constructor|].
  simpl in Hrun. apply bind_Ok_inv in Hrun as (id & Hid & Hrun).
  apply bind_Ok_inv in Hrun as (b & Hb & Hrun).
  apply bind_Ok_inv in Hrun as (au1 & _ & Hrun).
  apply au_id_ok_inv in Hid as [Hl ->].
  apply read_valid_ok_inv in Hb as [Hr Hb].
  constructor; [|exact (IH _ _ Hrun)]. eauto.
Qed.

(** X2: [get_action_unit] returns an array exactly when every label of the
    presence vector has the two characters [substr] skips and an id that
    indexes the arrays, every label of the intensity vector has those two
    characters, and every id of the intensity vector also occurs in the
    presence vector. In every other case the call faults: [substr] throws,
    an index lies outside of the arrays, or a slot of [valid] is read that
    was never written. *)
Theorem get_action_unit_defined_iff (intensity presence : list (string * float)) :
  (exists au, get_action_unit intensity presence = Ok au) <->
  Forall (fun p => label_ok (fst p)) presence /\
  Forall (fun p => (2 <= String.length (fst p))%nat) intensity /\
  (forall p, p ∈ intensity ->
     exists q, q ∈ presence /\ label_id (fst q) = label_id (fst p)).
Proof.
  unfold get_action_unit. split.
  - intros [au Hrun]. apply bind_Ok_inv in Hrun as (valid & Hp & Hi).
    destruct (presence_loop_spec _ _ _ Hp) as (Hlen & Hrange & Hslots).
    rewrite length_replicate in Hlen, Hrange, Hslots.
    pose proof (presence_loop_labels _ _ _ Hp) as Hlab.
    pose proof (intensity_loop_reads _ _ _ _ Hi) as Hreads.
    rewrite Forall_forall in Hrange, Hlab, Hreads.
    split; [|split].
    + apply Forall_forall. intros p Hin. split; [apply Hlab, Hin|apply Hrange, Hin].
    + apply Forall_forall. intros p Hin. apply (Hreads p Hin).
    + intros p Hin. destruct (Hreads p Hin) as (_ & Hr & b & Hb).
      rewrite Hlen in Hr. rewrite (Hslots (Z.to_nat (label_id (fst p)))) in Hb by lia.
      rewrite Z2Nat.id in Hb by lia.
      destruct (last_report presence (label_id (fst p))) as [f|] eqn:Hf.
      * apply (last_report_Some_member _ _ _ Hf).
      * rewrite lookup_replicate_2 in Hb by lia. discriminate Hb.
  - intros (Hokp & Hlab & Hsub).
    destruct (presence_loop_total presence (replicate AU_SIZE None)) as [valid Hp].
    { rewrite length_replicate. exact Hokp. }
    destruct (presence_loop_spec _ _ _ Hp) as (Hlen & Hrange & Hslots).
    rewrite length_replicate in Hlen, Hrange, Hslots.
    rewrite Hp, bind_Ok. apply intensity_loop_total.
    + rewrite Forall_forall in Hlab, Hrange |- *. intros p Hin.
      destruct (Hsub p Hin) as (q & Hq & Heq).
      pose proof (Hrange q Hq) as Hr. rewrite Heq in Hr. rewrite Hlen.
      split; [apply Hlab, Hin|]. split; [exact Hr|].
      destruct (last_report_member presence q Hq) as [f Hf].
      rewrite (Hslots (Z.to_nat (label_id (fst p)))) by lia.
      rewrite Z2Nat.id by lia. rewrite <- Heq, Hf. eauto.
    + rewrite length_replicate, Hlen. reflexivity.
Qed.

(** ** The weights [add_morph_frame] stores *)

Ltac compare_cases :=
  repeat match goal with
  | |- context [(?a ?= ?b)%Z] => destruct (Z.compare_spec a b)
  | H : context [(?a ?= ?b)%Z] |- _ => destruct (Z.compare_spec a b)
  | |- context [Pos.compare_cont Eq ?a ?b] =>
      change (Pos.compare_cont Eq a b) with (Pos.compare a b);
      destruct (Pos.compare_spec a b)
  | H : context [Pos.compare_cont Eq ?a ?b] |- _ =>
      change (Pos.compare_cont Eq a b) with (Pos.compare a b) in H;
      destruct (Pos.compare_spec a b)
  end.

Ltac compare_three x y z :=
  destruct x as [?|?| |[] ? ?], y as [?|?| |[] ? ?], z as [?|?| |[] ? ?];
  simpl; try discriminate; try reflexivity;
  repeat match goal with s : bool |- _ => destruct s end; simpl;
  try discriminate; try reflexivity;
  intros; compare_cases; simpl in *; subst;
  try discriminate; try reflexivity; try lia.

Lemma SFltb_leb_trans (x y z : spec_float) :
  SFltb x y = true -> SFleb y z = true -> SFltb x z = true.
Proof. unfold SFltb, SFleb. compare_three x y z. Qed.

Lemma SFleb_ltb_trans (x y z : spec_float) :
  SFleb x y = true -> SFltb y z = true -> SFltb x z = true.
Proof. unfold SFltb, SFleb. compare_three x y z. Qed.

Lemma float_ltb_leb_trans (a b c : float) :
  (a <? b)%float = true -> (b <=? c)%float = true -> (a <? c)%float = true.
Proof. rewrite !FloatAxioms.ltb_spec, FloatAxioms.leb_spec. apply SFltb_leb_trans. Qed.

Lemma float_leb_ltb_trans (a b c : float) :
  (a <=? b)%float = true -> (b <? c)%float = true -> (a <? c)%float = true.
Proof. rewrite !FloatAxioms.ltb_spec, FloatAxioms.leb_spec. apply SFleb_ltb_trans. Qed.

(** "Less than or equal" excludes "greater than". *)
Lemma float_leb_not_ltb (a b : float) :
  (a <=? b)%float = true -> (b <? a)%float = false.
Proof.
  rewrite FloatAxioms.ltb_spec, FloatAxioms.leb_spec. unfold SFltb, SFleb.
  rewrite (SFcompare_antisym (Prim2SF a) (Prim2SF b)).
  destruct (SFcompare (Prim2SF a) (Prim2SF b)) as [[]|]; simpl; congruence.
Qed.

(** Only numbers compare. *)
Lemma float_leb_numbers (a b : float) :
  (a <=? b)%float = true -> is_nan a = false /\ is_nan b = false.
Proof.
  intros H.
  destruct (is_nan a) eqn:Ha, (is_nan b) eqn:Hb; try (split; reflexivity); exfalso.
  all: revert H Ha Hb; unfold is_nan;
    rewrite FloatAxioms.leb_spec, !FloatAxioms.eqb_spec; unfold SFleb, SFeqb;
    destruct (Prim2SF a) as [[]|[]| |[] ? ?], (Prim2SF b) as [[]|[]| |[] ? ?];
    simpl; rewrite ?Z.compare_refl, ?Pos.compare_cont_refl; simpl; congruence.
Qed.

Lemma clamp01_fixed (w : float) :
  clamp01 w = w <-> is_nan w = true \/ in_unit_interval w = true.
Proof.
  split.
  - intros E. destruct (is_nan w) eqn:Hn; [left; reflexivity|right].
    rewrite <- E. apply clamp01_in_unit_interval, Hn.
  - intros [Hn|Hu]; [apply clamp01_nan, Hn|].
    unfold in_unit_interval in Hu. apply andb_true_iff in Hu as [H0 H1].
    unfold clamp01.
    rewrite (float_leb_not_ltb w 1 H1), (float_leb_not_ltb 0 w H0). reflexivity.
Qed.

Lemma clamp01_idempotent (w : float) : clamp01 (clamp01 w) = clamp01 w.
Proof.
  apply clamp01_fixed. destruct (is_nan w) eqn:Hn.
  - left. rewrite (clamp01_nan w Hn). exact Hn.
  - right. apply clamp01_in_unit_interval, Hn.
Qed.

Lemma clamp01_monotone (a b : float) :
  (a <=? b)%float = true -> (clamp01 a <=? clamp01 b)%float = true.
Proof.
  intros Hab. destruct (float_leb_numbers a b Hab) as [Ha Hb].
  pose proof (clamp01_in_unit_interval b Hb) as Hcb.
  unfold in_unit_interval in Hcb. apply andb_true_iff in Hcb as [Hb0 Hb1].
  unfold clamp01 at 1.
  destruct (1 <? a)%float eqn:H1a.
  - pose proof (float_ltb_leb_trans 1 a b H1a Hab) as H1b.
    unfold clamp01. rewrite H1b. reflexivity.
  - destruct (a <? 0)%float eqn:Ha0; [exact Hb0|].
    unfold clamp01. destruct (1 <? b)%float eqn:H1b.
    + simpl. apply (float_not_ltb_leb 1 a eq_refl Ha H1a).
    + destruct (b <? 0)%float eqn:Hb0'; [|exact Hab].
      rewrite (float_leb_ltb_trans a b 0 Hab Hb0') in Ha0. discriminate Ha0.
Qed.

Section Weights.

Variable utf8_to_sjis : string -> string.

(** X3: [add_morph_frame] stores the weight it is given exactly when the
    weight is NaN or lies in [0,1]; and what it stores, it would store again
    unchanged. *)
Theorem stored_weight_unchanged_iff (morph_vec : list VMD_Morph.t) (name : string)
    (frame_number : Z) (weight : float) :
  (add_morph_frame utf8_to_sjis morph_vec name frame_number weight
   = morph_vec ++ [VMD_Morph.mk (utf8_to_sjis name) frame_number weight]
   <-> is_nan weight = true \/ in_unit_interval weight = true) /\
  (forall m, add_morph_frame utf8_to_sjis [] name frame_number weight = [m] ->
     add_morph_frame utf8_to_sjis [] name frame_number (VMD_Morph.weight m) = [m]).
Proof.
  rewrite add_morph_frame_eq. split.
  - rewrite <- clamp01_fixed. split.
    + intros E. apply app_inv_head in E. congruence.
    + intros ->. reflexivity.
  - intros m E. rewrite !add_morph_frame_eq in *. simpl in *.
    injection E as <-. simpl. rewrite clamp01_idempotent. reflexivity.
Qed.

(** X4: the stored weight is monotone. Of two weights, the smaller one is
    never stored as the greater one. *)
Theorem stored_weight_is_monotone (name1 name2 : string) (n1 n2 : Z)
    (w1 w2 : float) (m1 m2 : VMD_Morph.t) :
  (w1 <=? w2)%float = true ->
  add_morph_frame utf8_to_sjis [] name1 n1 w1 = [m1] ->
  add_morph_frame utf8_to_sjis [] name2 n2 w2 = [m2] ->
  (VMD_Morph.weight m1 <=? VMD_Morph.weight m2)%float = true.
Proof.
  intros Hle E1 E2. rewrite add_morph_frame_eq in E1, E2. simpl in E1, E2.
  injection E1 as <-. injection E2 as <-. simpl. apply clamp01_monotone, Hle.
Qed.

End Weights.

(** The weights 0.25 and 2.5 are stored as 0.25 and 1. *)
Lemma stored_weight_is_monotone_witness :
  (VMD_Morph.weight (VMD_Morph.mk "あ" 0 0.25)
   <=? VMD_Morph.weight (VMD_Morph.mk "い" 1 1))%float = true.
Proof.
  exact (stored_weight_is_monotone same_name "あ" "い" 0 1 0.25 2.5 _ _
           eq_refl eq_refl eq_refl).
Defined.

(** ** The units the expressions read *)

(** X5: the morphs of a frame depend on thirteen units only. Two unit
    arrays that agree on them give the same morph records: the units AU10,
    AU14, AU17, AU20 and AU28 of the enumeration have no influence. *)
Theorem unread_units_are_ignored (utf8_to_sjis : string -> string)
    (morph_vec : list VMD_Morph.t) (au au' : list float) (frame_number : Z) :
  (forall a, a ∈ units_read -> au_at au a = au_at au' a) ->
  estimate_facial_expression utf8_to_sjis morph_vec au frame_number
  = estimate_facial_expression utf8_to_sjis morph_vec au' frame_number.
Proof.
  intros H. rewrite !estimate_facial_expression_eq. f_equal. f_equal.
  unfold expression_table.
  assert (E : forall a, In a units_read -> au_at au a = au_at au' a)
    by (intros a Ha; apply H, list_elem_of_In, Ha).
  repeat match goal with
         | |- context [au_at au ?a] => rewrite (E a) by (simpl; tauto)
         end.
  reflexivity.
Qed.

(** Arrays that differ on AU14, AU17 and AU28. *)
Lemma unread_units_are_ignored_witness :
  estimate_facial_expression same_name [] (au_single Dimpler 0.75) 3
  = estimate_facial_expression same_name [] (au_pair LipSuck 1 ChinRaiser 0.5) 3.
Proof.
  apply unread_units_are_ignored. intros a Ha.
  apply list_elem_of_In in Ha. simpl in Ha.
  repeat (destruct Ha as [<-|Ha]; [reflexivity|]). destruct Ha.
Defined.

(** ** The eye part of the gaze *)

Lemma find_eye_part_cons (n : string) (rest : list string) (left_eye : bool)
    (i : nat) (part : option nat) :
  find_eye_part (n :: rest) left_eye i part
  = find_eye_part rest left_eye (S i)
      (if bool_decide (n = eye_part_name left_eye) then Some i else part).
Proof.
  destruct left_eye; simpl.
  - destruct (bool_decide (n = "left_eye_28"%string)); reflexivity.
  - reflexivity.
Qed.

Lemma find_eye_part_absent (names : list string) (left_eye : bool) (i : nat)
    (part : option nat) :
  eye_part_name left_eye ∉ names -> find_eye_part names left_eye i part = part.
Proof.
  revert i part. induction names as [|n rest IH]; intros i part Hn; [reflexivity|].
  apply not_elem_of_cons in Hn as [Hne Hn].
  rewrite find_eye_part_cons, bool_decide_false by congruence. apply IH, Hn.
Qed.

Lemma find_eye_part_last (names : list string) (left_eye : bool) (j : nat) :
  names !! j = Some (eye_part_name left_eye) ->
  (forall k, (j < k)%nat -> names !! k <> Some (eye_part_name left_eye)) ->
  forall i part, find_eye_part names left_eye i part = Some (i + j)%nat.
Proof.
  revert j. induction names as [|n rest IH]; intros j Hj Hlast i part;
    [discriminate Hj|].
  rewrite find_eye_part_cons. destruct j as [|j].
  - injection Hj as ->. rewrite bool_decide_true by reflexivity.
    rewrite find_eye_part_absent; [f_equal; lia|].
    intros Hin. apply list_elem_of_lookup in Hin as [k Hk].
    apply (Hlast (S k)); [lia|exact Hk].
  - rewrite (IH j Hj); [f_equal; lia|].
    intros k Hk. apply (Hlast (S k)). lia.
Qed.

(** X6: the eye part [CustomEstimateGaze] works on. The search keeps the
    last part of the wanted name: the gaze is computed from the part at the
    greatest index whose name is "left_eye_28" (for the left eye) or
    "right_eye_28" (for the right eye), whatever the other parts are; with
    no part of that name the gaze is the zero vector and the rest of the
    estimation is not run. *)
Theorem CustomEstimateGaze_uses_last_eye_part
    (gaze_through_pupil : CLNF -> nat -> bool -> Vector3)
    (clnf_model : CLNF) (left_eye : bool) :
  (eye_part_name left_eye ∉ hierarchical_model_names clnf_model ->
   CustomEstimateGaze gaze_through_pupil clnf_model left_eye = mkVector3 0 0 0) /\
  (forall j : nat,
     hierarchical_model_names clnf_model !! j = Some (eye_part_name left_eye) ->
     (forall k, (j < k)%nat ->
        hierarchical_model_names clnf_model !! k <> Some (eye_part_name left_eye)) ->
     CustomEstimateGaze gaze_through_pupil clnf_model left_eye
     = gaze_through_pupil clnf_model j left_eye).
Proof.
  unfold CustomEstimateGaze. split.
  - intros H. rewrite (find_eye_part_absent _ _ _ _ H). reflexivity.
  - intros j Hj Hlast. rewrite (find_eye_part_last _ _ j Hj Hlast). reflexivity.
Qed.

(** Of two left eyes, the second one is used. *)
Lemma CustomEstimateGaze_uses_last_eye_part_witness :
  CustomEstimateGaze standin_part_gaze two_left_eyes true
  = standin_part_gaze two_left_eyes 2 true.
Proof.
  apply (proj2 (CustomEstimateGaze_uses_last_eye_part standin_part_gaze
                  two_left_eyes true) 2%nat).
  - reflexivity.
  - intros k Hk. destruct k as [|[|[|[|[|k]]]]]; try lia; discriminate.
Defined.

(** ** The layout of the document *)

Lemma frame_index_succ (i : nat) : uint32 (frame_index i + 1) = frame_index (S i).
Proof. unfold frame_index. rewrite uint32_succ, Nat2Z.inj_succ. reflexivity. Qed.

Lemma frame_index_range (i : nat) : 0 <= frame_index i < 2 ^ 32.
Proof. unfold frame_index, uint32. apply Z.mod_pos_bound. lia. Qed.

Lemma positions_where_ext {A : Type} (f g : A -> bool) (l : list A) :
  (forall a, a ∈ l -> f a = g a) ->
  forall i, positions_where f i l = positions_where g i l.
Proof.
  induction l as [|a l IH]; intros H i; [reflexivity|].
  simpl. rewrite (H a) by left. f_equal. apply IH. intros b Hb. apply H. right. exact Hb.
Qed.

Section StreamLayout.

Variable utf8_to_sjis : string -> string.
Variable AngleAxisd : float -> Vector3 -> Quaternion.
Variable quat_mul : Quaternion -> Quaternion -> Quaternion.
Variable quat_rotate : Quaternion -> Vector3 -> Vector3.
Variable FromTwoVectors : Vector3 -> Vector3 -> Quaternion.
Variable slerp : Quaternion -> float -> Quaternion -> Quaternion.
Variable gaze_through_pupil : CLNF -> nat -> bool -> Vector3.

Abbreviation process :=
  (process_frame utf8_to_sjis AngleAxisd quat_mul quat_rotate FromTwoVectors
     slerp gaze_through_pupil).
Abbreviation loop :=
  (frame_loop utf8_to_sjis AngleAxisd quat_mul quat_rotate FromTwoVectors
     slerp gaze_through_pupil).
Abbreviation mapping :=
  (mapping_phase utf8_to_sjis AngleAxisd quat_mul quat_rotate FromTwoVectors
     slerp gaze_through_pupil).
Abbreviation bone_samples :=
  (bone_samples utf8_to_sjis AngleAxisd quat_mul quat_rotate FromTwoVectors
     slerp gaze_through_pupil).
Abbreviation frame_bones :=
  (frame_bones utf8_to_sjis AngleAxisd quat_mul quat_rotate FromTwoVectors
     slerp gaze_through_pupil).
Abbreviation frame_morphs := (frame_morphs utf8_to_sjis).
Abbreviation stream_bones :=
  (stream_bones utf8_to_sjis AngleAxisd quat_mul quat_rotate FromTwoVectors
     slerp gaze_through_pupil).
Abbreviation stream_morphs := (stream_morphs utf8_to_sjis).

Lemma process_frame_samples (vmd vmd' : VMD.t) (n : Z) (obs : Observation) :
  process vmd n obs = Ok vmd' ->
  units_readable obs /\
  vmd' = VMD.mk (VMD.frame vmd ++ frame_bones obs n)
                (VMD.morph vmd ++ frame_morphs obs n).
Proof.
  intros H. unfold units_readable, frame_bones, frame_morphs.
  apply process_frame_ok_inv in H as [[Hd ->]|(Hd & au & Hau & ->)]; rewrite Hd.
  - split; [discriminate|]. rewrite !app_nil_r. destruct vmd; reflexivity.
  - rewrite Hau. split; [eauto|reflexivity].
Qed.

(** The loop appends the samples of the stream, and returns only when the
    units of every frame could be read. *)
Lemma frame_loop_stream (frames : list Observation) (vmd vmd' : VMD.t) (i : nat) :
  loop vmd (frame_index i) frames = Ok vmd' ->
  Forall units_readable frames /\
  vmd' = VMD.mk (VMD.frame vmd ++ stream_bones i frames)
                (VMD.morph vmd ++ stream_morphs i frames).
Proof.
  revert vmd i. induction frames as [|obs rest IH]; intros vmd i Hrun.
  - simpl in Hrun. injection Hrun as <-. split; [constructor|].
    simpl. rewrite !app_nil_r. destruct vmd; reflexivity.
  - simpl in Hrun. apply bind_Ok_inv in Hrun as (vmd1 & Hstep & Hrun).
    rewrite frame_index_succ in Hrun.
    apply process_frame_samples in Hstep as [Hr ->].
    apply IH in Hrun as [Hrs ->]. split; [constructor; assumption|].
    simpl. rewrite <- !app_assoc. reflexivity.
Qed.

Lemma mapping_phase_stream (frames : list Observation) (vmd : VMD.t) :
  mapping frames = Ok vmd ->
  Forall units_readable frames /\
  vmd = VMD.mk (stream_bones 0 frames) (stream_morphs 0 frames).
Proof. intros H. apply (frame_loop_stream frames VMD.empty vmd 0%nat H). Qed.




(** X9: the loop only appends. The document of a stream starts with the
    document of each of its prefixes, record for record. *)
Theorem document_grows_by_appending (pre post : list Observation) (vmd2 : VMD.t) :
  mapping (pre ++ post) = Ok vmd2 ->
  exists vmd1,
    mapping pre = Ok vmd1 /\
    VMD.frame vmd1 `prefix_of` VMD.frame vmd2 /\
    VMD.morph vmd1 `prefix_of` VMD.morph vmd2.
Proof.
  rewrite !mapping_phase_eq, frame_loop_app. intros H.
  apply bind_Ok_inv in H as (vmd1 & H1 & H2).
  exists vmd1. split; [exact H1|].
  rewrite Z.add_0_l in H2.
  apply (frame_loop_stream post vmd1 vmd2 (length pre)) in H2 as [_ ->].
  split; eexists; reflexivity.
Qed.

Lemma stream_bones_length (frames : list Observation) (i : nat) :
  length (stream_bones i frames)
  = (2 * length (filter (fun obs => detected obs = true) frames)
     + 2 * length (filter (fun obs => gaze_sampled obs = true) frames))%nat.
Proof.
  revert i. induction frames as [|obs rest IH]; intros i; [reflexivity|].
  simpl. rewrite length_app, IH, !filter_cons.
  unfold frame_bones, bone_samples, gaze_sampled.
  destruct (detected obs), (eye_model (face_model obs)); simpl; lia.
Qed.

Lemma stream_morphs_length (frames : list Observation) (i : nat) :
  Forall units_readable frames ->
  length (stream_morphs i frames)
  = (13 * length (filter (fun obs => detected obs = true) frames))%nat.
Proof.
  intros H. revert i. induction H as [|obs rest Hr _ IH]; intros i; [reflexivity|].
  simpl. rewrite length_app, IH, filter_cons. unfold frame_morphs.
  destruct (detected obs) eqn:Hd; simpl; [|lia].
  destruct (Hr Hd) as [au ->]. simpl. lia.
Qed.

(** X10: the size of the document. Every frame on which a face is found
    contributes thirteen morph records and two bone records, and two more
    bone records when the face model has an eye model; the other frames
    contribute nothing. *)
Theorem record_counts (frames : list Observation) (vmd : VMD.t) :
  mapping frames = Ok vmd ->
  length (VMD.morph vmd)
  = (13 * length (filter (fun obs => detected obs = true) frames))%nat /\
  length (VMD.frame vmd)
  = (2 * length (filter (fun obs => detected obs = true) frames)
     + 2 * length (filter (fun obs => gaze_sampled obs = true) frames))%nat.
Proof.
  intros H. apply mapping_phase_stream in H as [Hr ->]. simpl.
  split; [apply stream_morphs_length, Hr|apply stream_bones_length].
Qed.

Lemma bone_samples_shape (obs : Observation) (n : Z) :
  0 <= n < 2 ^ 32 ->
  Forall (bone_record_shape utf8_to_sjis) (bone_samples obs n).
Proof.
  intros Hn. unfold bone_samples, bone_record_shape.
  destruct (eye_model (face_model obs)); simpl; repeat constructor;
    try exact (proj1 Hn); try exact (proj2 Hn);
    try (left; split; [apply list_elem_of_In; simpl; tauto|reflexivity]);
    right; split; reflexivity.
Qed.

Lemma morph_samples_shape (au : list float) (n : Z) :
  0 <= n < 2 ^ 32 ->
  Forall (morph_record_shape utf8_to_sjis)
         (morph_of utf8_to_sjis n <$> expression_table au).
Proof.
  intros Hn. apply Forall_fmap, Forall_forall. intros p Hp.
  split; [|split; [exact Hn|apply clamp01_never_outside]].
  change (utf8_to_sjis (fst p) ∈ utf8_to_sjis <$> morph_names).
  rewrite <- (expression_table_names au).
  apply list_elem_of_fmap. exists (fst p). split; [reflexivity|].
  apply list_elem_of_fmap. exists p. split; [reflexivity|exact Hp].
Qed.

Lemma stream_bones_shape (frames : list Observation) (i : nat) :
  Forall (bone_record_shape utf8_to_sjis) (stream_bones i frames).
Proof.
  revert i. induction frames as [|obs rest IH]; intros i; [constructor|].
  simpl. apply Forall_app. split; [|apply IH].
  unfold frame_bones. destruct (detected obs); [apply bone_samples_shape, frame_index_range|constructor].
Qed.

Lemma stream_morphs_shape (frames : list Observation) (i : nat) :
  Forall (morph_record_shape utf8_to_sjis) (stream_morphs i frames).
Proof.
  revert i. induction frames as [|obs rest IH]; intros i; [constructor|].
  simpl. apply Forall_app. split; [|apply IH].
  unfold frame_morphs. destruct (detected obs); [|constructor].
  destruct (get_action_unit _ _); [apply morph_samples_shape, frame_index_range|constructor].
Qed.

(** X11: the records of the document. Every record is numbered by a value of
    the 32-bit counter. Every bone record is a rotation key of the head or
    of an eye with the zero translation, or the position key of the centre
    with the identity rotation; every morph record carries one of the
    thirteen morph names and a weight that is neither above 1 nor below 0. *)
Theorem records_are_well_shaped (frames : list Observation) (vmd : VMD.t) :
  mapping frames = Ok vmd ->
  Forall (bone_record_shape utf8_to_sjis) (VMD.frame vmd) /\
  Forall (morph_record_shape utf8_to_sjis) (VMD.morph vmd).
Proof.
  intros H. apply mapping_phase_stream in H as [_ ->]. simpl.
  split; [apply stream_bones_shape|apply stream_morphs_shape].
Qed.

Hypothesis utf8_to_sjis_bone_inj :
  forall a b : string, a ∈ bone_names -> b ∈ bone_names ->
    utf8_to_sjis a = utf8_to_sjis b -> a = b.

Hypothesis utf8_to_sjis_morph_inj :
  forall a b : string, a ∈ morph_names -> b ∈ morph_names ->
    utf8_to_sjis a = utf8_to_sjis b -> a = b.

Lemma bone_channel_numbers (obs : Observation) (n : Z) (nm : string) :
  nm ∈ bone_names ->
  VMD_Frame.number <$> bone_channel (utf8_to_sjis nm) (bone_samples obs n)
  = if bool_decide (nm ∈ bone_names_of obs) then [n] else [].
Proof using utf8_to_sjis_bone_inj.
  intros Hnm. destruct (decide (nm ∈ bone_names_of obs)) as [Hin|Hout].
  - rewrite bool_decide_true by exact Hin.
    assert (Hk : utf8_to_sjis nm ∈ VMD_Frame.bonename <$> bone_samples obs n).
    { rewrite bone_samples_names. apply list_elem_of_fmap. eauto. }
    apply list_elem_of_fmap in Hk as (f & Hf & Hmem). rewrite Hf.
    rewrite (bone_channel_of_samples utf8_to_sjis AngleAxisd quat_mul quat_rotate
             FromTwoVectors slerp gaze_through_pupil
             utf8_to_sjis_bone_inj obs n f Hmem).
    simpl. f_equal.
    pose proof (bone_samples_number utf8_to_sjis AngleAxisd quat_mul quat_rotate
                  FromTwoVectors slerp gaze_through_pupil obs n) as Hn.
    rewrite Forall_forall in Hn. apply Hn, Hmem.
  - rewrite bool_decide_false by exact Hout. unfold bone_channel.
    rewrite filter_key_none; [reflexivity|].
    rewrite bone_samples_names. intros Hk.
    apply list_elem_of_fmap in Hk as (b & Hb & Hmem). apply Hout.
    rewrite (utf8_to_sjis_bone_inj nm b Hnm (bone_names_of_sub obs b Hmem) Hb).
    exact Hmem.
Qed.

Lemma stream_bones_channel (nm : string) (frames : list Observation) (i : nat) :
  nm ∈ bone_names ->
  VMD_Frame.number <$> bone_channel (utf8_to_sjis nm) (stream_bones i frames)
  = frame_index <$> positions_where (has_bone nm) i frames.
Proof using utf8_to_sjis_bone_inj.
  intros Hnm. revert i. induction frames as [|obs rest IH]; intros i; [reflexivity|].
  simpl. rewrite bone_channel_app, !fmap_app, IH. f_equal.
  unfold frame_bones, has_bone. destruct (detected obs); [|reflexivity].
  rewrite (bone_channel_numbers obs _ nm Hnm). simpl.
  destruct (bool_decide (nm ∈ bone_names_of obs)); reflexivity.
Qed.

Lemma stream_morphs_channel (nm : string) (frames : list Observation) (i : nat) :
  nm ∈ morph_names -> Forall units_readable frames ->
  VMD_Morph.frame <$> morph_channel (utf8_to_sjis nm) (stream_morphs i frames)
  = frame_index <$> positions_where detected i frames.
Proof using utf8_to_sjis_morph_inj.
  intros Hnm H. revert i. induction H as [|obs rest Hr _ IH]; intros i; [reflexivity|].
  simpl. rewrite morph_channel_app, !fmap_app, IH. f_equal.
  unfold frame_morphs. destruct (detected obs) eqn:Hd; [|reflexivity].
  destruct (Hr Hd) as [au ->].
  rewrite <- (expression_table_names au) in Hnm.
  apply list_elem_of_fmap in Hnm as ([nm' x] & -> & Hin).
  rewrite (morph_channel_of_expression utf8_to_sjis utf8_to_sjis_morph_inj
             au _ nm' x Hin).
  reflexivity.
Qed.

Lemma has_bone_always (nm : string) (obs : Observation) :
  nm ∈ ["頭"; "センター"]%string -> has_bone nm obs = detected obs.
Proof.
  intros Hnm. unfold has_bone, bone_names_of.
  rewrite bool_decide_true; [apply andb_true_r|].
  apply elem_of_app. left. exact Hnm.
Qed.

Lemma has_bone_eye (nm : string) (obs : Observation) :
  nm ∈ ["左目"; "右目"]%string -> has_bone nm obs = gaze_sampled obs.
Proof.
  intros Hnm. unfold has_bone, gaze_sampled, bone_names_of. f_equal.
  destruct (eye_model (face_model obs)).
  - apply bool_decide_true, elem_of_app. right. exact Hnm.
  - apply bool_decide_false. rewrite app_nil_r. intros H.
    apply list_elem_of_In in Hnm, H. simpl in Hnm, H.
    destruct Hnm as [<-|[<-|[]]], H as [H|[H|[]]]; discriminate H.
Qed.

(** X12: the time line of every channel, for streams of any length. After the
    mapping phase the head channel and the centre channel hold one record
    for each frame on which a face is found, numbered by the position of the
    frame in the stream modulo [2^32]; each eye channel holds one record for
    each of those frames whose face model has an eye model; each of the
    thirteen morph channels holds one record for each frame on which a face
    is found. The encoding is assumed to keep the names of one kind apart. *)
Theorem channel_timelines (frames : list Observation) (vmd : VMD.t) :
  mapping frames = Ok vmd ->
  (forall nm, nm ∈ ["頭"; "センター"]%string ->
     VMD_Frame.number <$> bone_channel (utf8_to_sjis nm) (VMD.frame vmd)
     = frame_index <$> positions_where detected 0 frames) /\
  (forall nm, nm ∈ ["左目"; "右目"]%string ->
     VMD_Frame.number <$> bone_channel (utf8_to_sjis nm) (VMD.frame vmd)
     = frame_index <$> positions_where gaze_sampled 0 frames) /\
  (forall nm, nm ∈ morph_names ->
     VMD_Morph.frame <$> morph_channel (utf8_to_sjis nm) (VMD.morph vmd)
     = frame_index <$> positions_where detected 0 frames).
Proof using utf8_to_sjis_bone_inj utf8_to_sjis_morph_inj.
  intros H. apply mapping_phase_stream in H as [Hr ->]. simpl.
  split; [|split].
  - intros nm Hnm. rewrite stream_bones_channel.
    + apply f_equal, positions_where_ext. intros obs _. apply has_bone_always, Hnm.
    + apply list_elem_of_In in Hnm. apply list_elem_of_In. simpl in *. tauto.
  - intros nm Hnm. rewrite stream_bones_channel.
    + apply f_equal, positions_where_ext. intros obs _. apply has_bone_eye, Hnm.
    + apply list_elem_of_In in Hnm. apply list_elem_of_In. simpl in *. tauto.
  - intros nm Hnm. apply stream_morphs_channel; assumption.
Qed.

End StreamLayout.


(** The document after one frame starts the document after three. *)
Lemma document_grows_by_appending_witness :
  exists vmd2,
    example_mapping ([still_frame] ++ [lost_frame; gazing_frame]) = Ok vmd2
    /\ exists vmd1,
         example_mapping [still_frame] = Ok vmd1
         /\ VMD.frame vmd1 `prefix_of` VMD.frame vmd2
         /\ VMD.morph vmd1 `prefix_of` VMD.morph vmd2.
Proof.
  eexists. split; [vm_compute; reflexivity|].
  apply (document_grows_by_appending same_name standin_AngleAxisd
           standin_quat_mul standin_quat_rotate standin_FromTwoVectors
           standin_slerp standin_gaze [still_frame] [lost_frame; gazing_frame]).
  vm_compute. reflexivity.
Defined.

(** Two frames with a face, one of them with an eye model: 26 morph records
    and 6 bone records. *)
Lemma record_counts_witness :
  exists vmd,
    example_mapping [still_frame; lost_frame; gazing_frame] = Ok vmd
    /\ length (VMD.morph vmd) = 26%nat
    /\ length (VMD.frame vmd) = 6%nat.
Proof.
  eexists. split; [vm_compute; reflexivity|].
  apply (record_counts same_name standin_AngleAxisd
           standin_quat_mul standin_quat_rotate standin_FromTwoVectors
           standin_slerp standin_gaze [still_frame; lost_frame; gazing_frame]).
  vm_compute. reflexivity.
Defined.

(** The records of the same stream. *)
Lemma records_are_well_shaped_witness :
  exists vmd,
    example_mapping [still_frame; lost_frame; gazing_frame] = Ok vmd
    /\ Forall (bone_record_shape same_name) (VMD.frame vmd)
    /\ Forall (morph_record_shape same_name) (VMD.morph vmd).
Proof.
  eexists. split; [vm_compute; reflexivity|].
  apply (records_are_well_shaped same_name standin_AngleAxisd
           standin_quat_mul standin_quat_rotate standin_FromTwoVectors
           standin_slerp standin_gaze [still_frame; lost_frame; gazing_frame]).
  vm_compute. reflexivity.
Defined.

(** The head channel of the stream holds the frames 0 and 2, the channel of
    the left eye the frame 2. *)
Lemma channel_timelines_witness :
  exists vmd,
    example_mapping [still_frame; lost_frame; gazing_frame] = Ok vmd
    /\ VMD_Frame.number <$> bone_channel (same_name "頭") (VMD.frame vmd) = [0; 2]
    /\ VMD_Frame.number <$> bone_channel (same_name "左目") (VMD.frame vmd) = [2]
    /\ VMD_Morph.frame <$> morph_channel (same_name "あ") (VMD.morph vmd) = [0; 2].
Proof.
  eexists. split; [vm_compute; reflexivity|].
  destruct (channel_timelines same_name standin_AngleAxisd
              standin_quat_mul standin_quat_rotate standin_FromTwoVectors
              standin_slerp standin_gaze same_name_bone_inj same_name_morph_inj
              [still_frame; lost_frame; gazing_frame] _
              ltac:(vm_compute; reflexivity)) as (Hh & He & Hm).
  split; [|split].
  - apply (Hh "頭"%string). apply list_elem_of_In. simpl. tauto.
  - apply (He "左目"%string). apply list_elem_of_In. simpl. tauto.
  - apply (Hm "あ"%string). apply list_elem_of_In. simpl. tauto.
Defined.

(** ** The header *)

Lemma length_list_ascii_of_string (s : string) :
  length (list_ascii_of_string s) = String.length s.
Proof. induction s as [|c s IH]; simpl; congruence. Qed.

(** Clearing a field and copying a text into it: the field must hold the
    text and its terminating null, and ends up null-padded. *)
Lemma strcpy_memset (s : list ascii) (text : string) (r : list ascii) :
  (memset s NUL (length s) ≫= fun s' => strcpy s' text) = Some r <->
  (String.length text < length s)%nat /\ r = null_padded text (length s).
Proof.
  unfold memset. rewrite decide_True by lia. simpl.
  rewrite drop_all, app_nil_r. unfold strcpy, null_padded.
  rewrite length_app, length_list_ascii_of_string, length_replicate. simpl length.
  destruct (decide _) as [Hle|Hgt].
  - split.
    + intros [= <-]. split; [lia|].
      rewrite <- app_assoc. f_equal. rewrite drop_replicate.
      replace (length s - String.length text)%nat
        with (S (length s - (String.length text + 1)))%nat by lia.
      reflexivity.
    + intros [_ ->]. f_equal. rewrite <- app_assoc. f_equal. rewrite drop_replicate.
      replace (length s - String.length text)%nat
        with (S (length s - (String.length text + 1)))%nat by lia.
      reflexivity.
  - split; [discriminate|]. intros [Hlt _]. lia.
Qed.

(** X13: [init_vmd_header] needs a version field of at least 26 characters and
    a model-name field of at least 12, and leaves the two texts null-padded
    to the widths of the fields, whatever the fields held before. *)
Theorem init_vmd_header_fields (h h' : VMD_Header.t) :
  init_vmd_header h = Some h' <->
  (26 <= VMD_Header.version_len h)%nat /\
  (12 <= VMD_Header.modelname_len h)%nat /\
  VMD_Header.version h'
  = null_padded "Vocaloid Motion Data 0002" (VMD_Header.version_len h) /\
  VMD_Header.modelname h'
  = null_padded "dummy model" (VMD_Header.modelname_len h).
Proof.
  unfold VMD_Header.version_len, VMD_Header.modelname_len.
  assert (E : init_vmd_header h =
              (version ← (memset (VMD_Header.version h) NUL
                            (length (VMD_Header.version h))
                          ≫= fun s' => strcpy s' "Vocaloid Motion Data 0002");
               modelname ← (memset (VMD_Header.modelname h) NUL
                              (length (VMD_Header.modelname h))
                            ≫= fun s' => strcpy s' "dummy model");
               Some (VMD_Header.mk version modelname))).
  { unfold init_vmd_header, VMD_Header.version_len, VMD_Header.modelname_len.
    destruct (memset (VMD_Header.version h) _ _) as [v0|]; [simpl|reflexivity].
    destruct (strcpy v0 _) as [v|]; [simpl|reflexivity].
    destruct (memset (VMD_Header.modelname h) _ _); reflexivity. }
  rewrite E. clear E.
  destruct (memset (VMD_Header.version h) _ _ ≫= _) as [v|] eqn:Ev;
    [destruct (memset (VMD_Header.modelname h) _ _ ≫= _) as [m|] eqn:Em|]; simpl.
  - apply strcpy_memset in Ev as [Hlv ->]. apply strcpy_memset in Em as [Hlm ->].
    simpl in Hlv, Hlm. split.
    + intros [= <-]. simpl. repeat split; lia.
    + intros (_ & _ & E1 & E2). destruct h' as [v' m']. simpl in E1, E2.
      subst. reflexivity.
  - split; [discriminate|]. intros (_ & Hlm & _).
    assert (Some (null_padded "dummy model" (length (VMD_Header.modelname h)))
            = None) as Habs; [|discriminate Habs].
    rewrite <- Em. symmetry. apply strcpy_memset. split; [simpl; lia|reflexivity].
  - split; [discriminate|]. intros (Hlv & _).
    assert (Some (null_padded "Vocaloid Motion Data 0002"
                    (length (VMD_Header.version h))) = None) as Habs;
      [|discriminate Habs].
    rewrite <- Ev. symmetry. apply strcpy_memset. split; [simpl; lia|reflexivity].
Qed.

(** The fields of a header that was in use. *)
Example init_vmd_header_example :
  init_vmd_header used_header
  = Some (VMD_Header.mk
            (list_ascii_of_string "Vocaloid Motion Data 0002" ++ replicate 5 NUL)
            (list_ascii_of_string "dummy model" ++ replicate 9 NUL)).
Proof. reflexivity. Qed.

